(** * Issue tracker dashboard: normalisation, date parsing and aggregation

    A shallow embedding of the data core of the dashboard and the properties
    its specification states about it.

    - [Local]  is the file-upload variant (the component whose helpers are
      [getColumnValue], [parseDate], [getResolutionDays], the [reduce]
      aggregations, [avgResolutionTime], [stateData] and [filteredData]).
    - [Remote] is the API variant ([src/App.tsx]); only its
      [getResolutionDays] computes anything, the rest is fetched.
    - [JS] holds the pieces of the JavaScript runtime both variants call.

    Modelling conventions.
    - A JavaScript string is a [string]; its characters stand for the code
      units U+0000..U+00FF, and [trim], [toLowerCase] and the regular
      expression classes are modelled on that range.
    - A JavaScript number holding an integer is a [Z], and [NaN] is [None].
      Sums and differences of doubles that hold integers are exact below
      2^53, which covers every time value a [Date] can hold (at most
      8.64e15) and every count, and up to there the digits of an integer are
      what [String] prints of it.  The difference of two time values can
      reach 2^53 and the quotient by the length of a day followed by
      [Math.ceil] is exact below 2^53 ms only, so the statements about a
      number of days or about the digits of a cell carry that bound.  The one
      division whose result is not an integer, the average, is left to the
      runtime with the law that it rounds to nearest.
    - An object used as a dictionary is an association list of its own
      properties in the order in which its keys are enumerated.  The
      accumulators of the aggregation begin as [{}], so a name that is not an
      own key is read from [Object.prototype]: [constructor], [toString] and
      the like are functions there, and [__proto__] is an accessor.  The
      records themselves are only read under the literal names of the alias
      lists, none of which [Object.prototype] defines. *)

From Stdlib Require Import ZArith List Bool Lia.
From Stdlib Require Import Strings.String Strings.Ascii.
From Stdlib Require Import Numbers.DecimalString Numbers.DecimalPos.
From Stdlib Require Import QArith Qround Qabs Lqa.
From Stdlib Require Import Sorting.Permutation Sorting.Sorted.
Import ListNotations.

Open Scope string_scope.
Open Scope Z_scope.

(* ================================================================== *)
(** * The runtime *)
(* ================================================================== *)

Module JS.

(** ** Strings *)

Definition code (c : ascii) : Z := Z.of_N (N_of_ascii c).

(** [WhiteSpace] and [LineTerminator] code units below U+0100: this is both
    what [String.prototype.trim] strips and what the class [\s] accepts. *)
Definition isWhiteSpace (c : ascii) : bool :=
  let n := code c in
  ((9 <=? n) && (n <=? 13)) || (n =? 32) || (n =? 160).

Definition isDigit (c : ascii) : bool :=
  let n := code c in (48 <=? n) && (n <=? 57).

Fixpoint trimStart (s : string) : string :=
  match s with
  | EmptyString => EmptyString
  | String c r => if isWhiteSpace c then trimStart r else s
  end.

Fixpoint trimEnd (s : string) : string :=
  match s with
  | EmptyString => EmptyString
  | String c r =>
      let r' := trimEnd r in
      if isWhiteSpace c && (r' =? "")%string then EmptyString else String c r'
  end.

Definition trim (s : string) : string := trimEnd (trimStart s).

Definition lowerChar (c : ascii) : ascii :=
  let n := code c in
  if ((65 <=? n) && (n <=? 90))
     || ((192 <=? n) && (n <=? 214))
     || ((216 <=? n) && (n <=? 222))
  then ascii_of_N (Z.to_N (n + 32))
  else c.

Fixpoint toLowerCase (s : string) : string :=
  match s with
  | EmptyString => EmptyString
  | String c r => String (lowerChar c) (toLowerCase r)
  end.

(** ** Numbers *)

(** The numbers the program computes with are integers or [NaN]. *)
Definition number : Type := option Z.
Definition NaN : number := None.

Definition isNaN (x : number) : bool :=
  match x with None => true | Some _ => false end.

Definition lift1 (f : Z -> Z) (x : number) : number :=
  match x with Some a => Some (f a) | None => None end.

Definition lift2 (f : Z -> Z -> Z) (x y : number) : number :=
  match x, y with Some a, Some b => Some (f a b) | _, _ => None end.

(** [x + y] and [x - y] on doubles that hold integers: the exact sum and
    difference, which is what the doubles give as long as the result stays
    below 2^53 in absolute value. *)
Definition add : number -> number -> number := lift2 Z.add.
Definition sub : number -> number -> number := lift2 Z.sub.
Definition Math_abs : number -> number := lift1 Z.abs.

(** [Math.ceil(x / d)] for an integer [x] and a positive integer [d]: the
    least integer not below the quotient, which is what the doubles give for
    [x] below 2^53, the rounding of the quotient being too small there to
    reach the next integer. *)
Definition Math_ceil_div (x : number) (d : Z) : number :=
  lift1 (fun a => - ((- a) / d)) x.

(** [Number.prototype.toString] of an integer below 2^53 in absolute value:
    its decimal digits.  (Beyond, a double is printed by the shortest digits
    that tell it from its neighbours, and from 1e21 on with an exponent.) *)
Definition Number_toString (x : number) : string :=
  match x with
  | Some n => NilEmpty.string_of_int (Z.to_int n)
  | None => "NaN"
  end.

Definition digitValue (c : ascii) : Z := code c - 48.

Fixpoint digitsValue (acc : Z) (s : string) : Z :=
  match s with
  | EmptyString => acc
  | String c r => if isDigit c then digitsValue (10 * acc + digitValue c) r else acc
  end.

Definition startsWithDigit (s : string) : bool :=
  match s with String c _ => isDigit c | EmptyString => false end.

(** [parseInt] without a radix: leading whitespace, an optional sign, then the
    leading run of decimal digits; [NaN] when there is no digit.  (A [0x]
    prefix would select radix 16; no string this program passes has one:
    they are groups captured by [\d{..}] and outputs of [Number_toString].) *)
Definition parseInt (s : string) : number :=
  match trimStart s with
  | String "-" r => if startsWithDigit r then Some (- digitsValue 0 r) else NaN
  | String "+" r => if startsWithDigit r then Some (digitsValue 0 r) else NaN
  | r => if startsWithDigit r then Some (digitsValue 0 r) else NaN
  end.

(** [Number.prototype.toFixed(1)] on the exact value [x] of a double below
    1e21: the integer [n] with [n / 10] nearest to [x], the larger one on a
    tie, printed with one digit after the point. *)
Definition fixed1 (x : Q) : string :=
  let n := Qfloor (10 * x + (1 # 2)) in
  Number_toString (Some (n / 10)) ++ "." ++ Number_toString (Some (n mod 10)).

Definition toFixed1 (x : option Q) : string :=
  match x with
  | None => "NaN"
  | Some x => if Qle_bool 0 x then fixed1 x else "-" ++ fixed1 (- x)
  end.

(** ** Dates *)

Definition msPerDay : Z := 1000 * 60 * 60 * 24.

Definition DayFromYear (y : Z) : Z :=
  365 * (y - 1970) + (y - 1969) / 4 - (y - 1901) / 100 + (y - 1601) / 400.

Definition InLeapYear (y : Z) : bool :=
  ((y mod 4 =? 0) && negb (y mod 100 =? 0)) || (y mod 400 =? 0).

(** Day within the year on which month [mn] (0 = January) starts. *)
Definition monthStart (leap : bool) (mn : Z) : Z :=
  let l := if leap then 1 else 0 in
  match mn with
  | 0 => 0
  | 1 => 31
  | 2 => 59 + l
  | 3 => 90 + l
  | 4 => 120 + l
  | 5 => 151 + l
  | 6 => 181 + l
  | 7 => 212 + l
  | 8 => 243 + l
  | 9 => 273 + l
  | 10 => 304 + l
  | _ => 334 + l
  end.

(** [MakeDay(year, month, date)]: months and days out of range carry over. *)
Definition MakeDay (year month date : Z) : Z :=
  let ym := year + month / 12 in
  let mn := month mod 12 in
  DayFromYear ym + monthStart (InLeapYear ym) mn + date - 1.

(** A year 0..99 given to the [Date] constructor means 1900..1999. *)
Definition MakeFullYear (y : Z) : Z :=
  if (0 <=? y) && (y <=? 99) then 1900 + y else y.

Definition TimeClip (t : Z) : number :=
  if Z.abs t <=? 8640000000000000 then Some t else NaN.

(** What the host provides and the language leaves to it. *)
Class Runtime : Type := {
  (** [UTC(t)]: the time value of the local time [t]. *)
  UTC : Z -> Z;
  (** the time value of [new Date(s)] for a string [s], [NaN] if the host
      cannot read it. *)
  DateParse : string -> number;
  (** the double [a / b] for two integers, by its exact value. *)
  fdiv : Z -> Z -> Q;
  (** a local time is within a day of its time value *)
  UTC_near : forall t, Z.abs (UTC t - t) <= msPerDay;
  (** division rounds to the nearest double *)
  fdiv_accurate : forall a b, 0 <= a -> 0 < b ->
    (Qabs (fdiv a b - inject_Z a / inject_Z b)
     <= (inject_Z a / inject_Z b) * (1 # 9007199254740992))%Q
}.

(** A [Date] object, by its time value. *)
Record Date : Type := mkDate { getTime : number }.

(** [new Date(year, monthIndex, day)] *)
Definition newDate `{Runtime} (year monthIndex day : number) : Date :=
  match year, monthIndex, day with
  | Some y, Some m, Some d =>
      mkDate (TimeClip (UTC (MakeDay (MakeFullYear y) m d * msPerDay)))
  | _, _, _ => mkDate NaN
  end.

(** [new Date(s)] for a string *)
Definition newDateOfString `{Runtime} (s : string) : Date :=
  mkDate (DateParse s).

(** [new Date(n)] for a number *)
Definition newDateOfNumber (n : Z) : Date := mkDate (TimeClip n).

(** ** Regular expressions

    The two patterns of the date parser are sequences of digit groups,
    literals and one whitespace run.  Each group is followed by a character it
    cannot contain (or by the end of the input), so the longest match of a
    group is the only one that can succeed and no backtracking arises. *)

Definition obind {A B : Type} (m : option A) (k : A -> option B) : option B :=
  match m with Some a => k a | None => None end.

Notation "x <- m ;; k" := (obind m (fun x => k))
  (at level 61, m at next level, right associativity).
Notation "' p <- m ;; k" := (obind m (fun x => match x with p => k end))
  (at level 61, p pattern, m at next level, right associativity).

(** [(\d{1,2})]: the group and the rest of the input. *)
Definition digits1or2 (s : string) : option (string * string) :=
  match s with
  | String a (String b r) =>
      if isDigit a then
        if isDigit b then Some (String a (String b EmptyString), r)
        else Some (String a EmptyString, String b r)
      else None
  | String a EmptyString =>
      if isDigit a then Some (String a EmptyString, EmptyString) else None
  | EmptyString => None
  end.

(** [(\d{n})] *)
Fixpoint digitsN (n : nat) (s : string) : option (string * string) :=
  match n with
  | O => Some (EmptyString, s)
  | S n' =>
      match s with
      | String a r =>
          if isDigit a then
            '(g, r') <- digitsN n' r ;; Some (String a g, r')
          else None
      | EmptyString => None
      end
  end.

(** a literal character *)
Definition lit (c : ascii) (s : string) : option string :=
  match s with
  | String a r => if Ascii.eqb a c then Some r else None
  | EmptyString => None
  end.

(** [\s+] *)
Definition spaces1 (s : string) : option string :=
  match s with
  | String a r => if isWhiteSpace a then Some (trimStart r) else None
  | EmptyString => None
  end.

(** [$] *)
Definition eos (s : string) : option unit :=
  match s with EmptyString => Some tt | String _ _ => None end.

(** ** Objects as dictionaries *)

Fixpoint allDigits (s : string) : bool :=
  match s with
  | EmptyString => true
  | String c r => isDigit c && allDigits r
  end.

(** An array index: the canonical decimal form of an integer below 2^32 - 1. *)
Definition isArrayIndex (k : string) : bool :=
  allDigits k
  && (k =? Number_toString (Some (digitsValue 0 k)))%string
  && (digitsValue 0 k <? 4294967295).

Fixpoint insertIndexed {V : Type} (e : string * V) (l : list (string * V))
  : list (string * V) :=
  match l with
  | [] => [e]
  | e' :: l' =>
      if digitsValue 0 (fst e) <=? digitsValue 0 (fst e') then e :: l
      else e' :: insertIndexed e l'
  end.

(** [Object.entries(o)] for an object whose own properties were created in
    the order of [o]: array indices first, ascending, then the other keys in
    creation order. *)
Definition Object_entries {V : Type} (o : list (string * V)) : list (string * V) :=
  fold_right insertIndexed [] (filter (fun e => isArrayIndex (fst e)) o)
  ++ filter (fun e => negb (isArrayIndex (fst e))) o.

(** ** Splitting and percent-encoding *)

(** [s.split(sep)] for a one-character separator: never empty. *)
Fixpoint split (sep : ascii) (s : string) : list string :=
  match s with
  | EmptyString => [EmptyString]
  | String c r =>
      if Ascii.eqb c sep then EmptyString :: split sep r
      else
        match split sep r with
        | h :: t => String c h :: t
        | [] => [String c EmptyString]
        end
  end.

(** [a.pop()] on an array that is not kept: its last element, [undefined]
    when it is empty. *)
Definition pop (a : list string) : option string :=
  match a with
  | [] => None
  | x :: r => Some (last r x)
  end.

Fixpoint contains (c : ascii) (s : string) : bool :=
  match s with
  | EmptyString => false
  | String a r => Ascii.eqb a c || contains c r
  end.

(** The characters [encodeURIComponent] leaves as they are. *)
Definition isUnreserved (c : ascii) : bool :=
  let n := code c in
  ((48 <=? n) && (n <=? 57)) || ((65 <=? n) && (n <=? 90))
  || ((97 <=? n) && (n <=? 122)) || contains c "-_.!~*'()".

Definition hexDigit (n : Z) : ascii :=
  ascii_of_N (Z.to_N (if n <? 10 then 48 + n else 55 + n)).

(** [%XX] for one octet *)
Definition percent (octet : Z) : string :=
  String "%" (String (hexDigit (octet / 16))
                     (String (hexDigit (octet mod 16)) EmptyString)).

(** One code unit below U+0100: itself, or the octets of its UTF-8 form. *)
Definition encodeUnit (c : ascii) : string :=
  let n := code c in
  if isUnreserved c then String c EmptyString
  else if n <? 128 then percent n
  else percent (192 + n / 64) ++ percent (128 + n mod 64).

Fixpoint encodeURIComponent (s : string) : string :=
  match s with
  | EmptyString => EmptyString
  | String c r => encodeUnit c ++ encodeURIComponent r
  end.

End JS.

Import JS.

(* ================================================================== *)
(** * Records *)
(* ================================================================== *)

(** A text or a number.  It is what the CSV and spreadsheet readers deliver
    for a cell (a number, here an integer, for a numeric spreadsheet cell),
    and what a property of an accumulator or the value of a bucket holds. *)
Inductive cell : Type :=
| Str (s : string)
| Num (n : Z).

(** [interface IssueRow { [key: string]: any }]: the own keys of the record in
    enumeration order, each with its cell. *)
Definition IssueRow : Type := list (string * cell).

(** [row[key]] for a key that is not the name of a member of
    [Object.prototype], as every key the program reads a record under;
    [None] is [undefined]. *)
Fixpoint prop (row : IssueRow) (key : string) : option cell :=
  match row with
  | [] => None
  | (k, v) :: rest => if (k =? key)%string then Some v else prop rest key
  end.

(** [Object.keys(row)] *)
Definition keys (row : IssueRow) : list string := map fst row.

(** [String(x)] *)
Definition ToString (x : option cell) : string :=
  match x with
  | None => "undefined"
  | Some (Str s) => s
  | Some (Num n) => Number_toString (Some n)
  end.

(** [x !== undefined && x !== ''] *)
Definition present (x : option cell) : bool :=
  match x with
  | None => false
  | Some (Str s) => negb (s =? "")%string
  | Some (Num _) => true
  end.

(** [!x] *)
Definition falsy (x : option cell) : bool :=
  match x with
  | None => true
  | Some (Str s) => (s =? "")%string
  | Some (Num n) => n =? 0
  end.

(** [interface ChartData { name: string; value: number }].  The annotation
    is not checked when the program runs: a bucket made from an accumulator
    carries what the accumulator holds, a number or a text. *)
Record ChartData : Type := mkChartData { name : string; value : cell }.

(** ** Objects used as dictionaries *)

(** What reading a property of an object literal gives: [undefined], a
    number or a text the object holds, or a member of [Object.prototype]. *)
Inductive property : Type :=
| Undefined
| Prim (c : cell)
| Member (k : string).

(** The names an object literal inherits from [Object.prototype]. *)
Definition inheritedNames : list string :=
  ["constructor"; "__defineGetter__"; "__defineSetter__"; "hasOwnProperty";
   "__lookupGetter__"; "__lookupSetter__"; "isPrototypeOf";
   "propertyIsEnumerable"; "toString"; "valueOf"; "__proto__";
   "toLocaleString"].

Definition isInherited (k : string) : bool :=
  existsb (fun i => (i =? k)%string) inheritedNames.

(** The text an inherited member turns into when it is added to a number.
    [__proto__] reads as the prototype itself, an object; the other members
    are built-in functions, which turn into their source text, printed here
    as V8 does (engines differ in the white space between the braces). *)
Definition memberText (k : string) : string :=
  if (k =? "__proto__")%string then "[object Object]"
  else if (k =? "constructor")%string then "function Object() { [native code] }"
  else "function " ++ k ++ "() { [native code] }".

(** [!!x]: an object is true, a number unless it is zero, a text unless it is
    empty. *)
Definition truthy (x : property) : bool :=
  match x with
  | Undefined => false
  | Prim c => negb (falsy (Some c))
  | Member _ => true
  end.

(** [x || y] *)
Definition por (x y : property) : property := if truthy x then x else y.

(** [x || 0] *)
Definition orZero (x : property) : property := por x (Prim (Num 0)).

(** [(x || 0) + 1]: a number goes up by one, and [undefined] counts as zero;
    a text that is not empty and a member of the prototype are joined with
    the text of the number 1. *)
Definition orZeroPlusOne (x : property) : cell :=
  match x with
  | Undefined => Num 1
  | Prim (Num n) => Num (n + 1)
  | Prim (Str s) => if (s =? "")%string then Num 1 else Str (s ++ "1")
  | Member k => Str (memberText k ++ "1")
  end.

(* ================================================================== *)
(** * The local-data variant *)
(* ================================================================== *)

Module Local.

(** ** Column resolver *)

(** The first loop of [getColumnValue]: the aliases in order, by exact key. *)
Fixpoint exactPass (row : IssueRow) (possibleNames : list string) : option string :=
  match possibleNames with
  | [] => None
  | name :: rest =>
      if present (prop row name) then Some (trim (ToString (prop row name)))
      else exactPass row rest
  end.

(** The inner loop of the second pass: does some alias equal the trimmed,
    lower-cased key once lower-cased itself? *)
Fixpoint aliasMatches (trimmedKey : string) (possibleNames : list string) : bool :=
  match possibleNames with
  | [] => false
  | name :: rest =>
      if (trimmedKey =? toLowerCase name)%string then true
      else aliasMatches trimmedKey rest
  end.

(** The second loop: the keys of the record in enumeration order. *)
Fixpoint fallbackPass (row : IssueRow) (ks : list string)
    (possibleNames : list string) : option string :=
  match ks with
  | [] => None
  | key :: rest =>
      let trimmedKey := toLowerCase (trim key) in
      if aliasMatches trimmedKey possibleNames
      then Some (trim (ToString (prop row key)))
      else fallbackPass row rest possibleNames
  end.

Definition getColumnValue (row : IssueRow) (possibleNames : list string) : string :=
  match exactPass row possibleNames with
  | Some v => v
  | None =>
      match fallbackPass row (keys row) possibleNames with
      | Some v => v
      | None => "Unknown"
      end
  end.

Definition statusNames : list string := ["Status"; "status"; "Status "].
Definition priorityNames : list string := ["Priority"; "priority"; "Priority "].
Definition typeNames : list string :=
  ["Issue tracker"; "Issue tracker "; "Issue Tracker"; "Issue Tracker ";
   "issue tracker"; "Tracker"; "Type"; "type"].
Definition stateNames : list string := ["State"; "state"; "State "; "States"; "states"].
Definition createdOnNames : list string :=
  ["created_on"; "Created"; "created_on "; "Created On"].
Definition closedOnNames : list string :=
  ["closed_on"; "Closed On"; "closed_on "; "Closed_On"; "closedOn"].

Definition getStatus (row : IssueRow) : string := getColumnValue row statusNames.
Definition getPriority (row : IssueRow) : string := getColumnValue row priorityNames.
Definition getType (row : IssueRow) : string := getColumnValue row typeNames.
Definition getState (row : IssueRow) : string := getColumnValue row stateNames.

Definition getCreatedOn (row : IssueRow) : string :=
  let val := getColumnValue row createdOnNames in
  if (val =? "Unknown")%string then "-" else val.

Definition getClosedOn (row : IssueRow) : string :=
  let val := getColumnValue row closedOnNames in
  if (val =? "Unknown")%string then "-" else val.

(** ** Date parser *)

(** [/^(\d{1,2})\/(\d{1,2})\/(\d{4})\s+(\d{1,2}):(\d{2})$/]: the first three
    groups. *)
Definition match1 (s : string) : option (string * string * string) :=
  '(g1, r) <- digits1or2 s ;;
  r <- lit "/" r ;;
  '(g2, r) <- digits1or2 r ;;
  r <- lit "/" r ;;
  '(g3, r) <- digitsN 4 r ;;
  r <- spaces1 r ;;
  '(_, r) <- digits1or2 r ;;
  r <- lit ":" r ;;
  '(_, r) <- digitsN 2 r ;;
  _ <- eos r ;;
  Some (g1, g2, g3).

(** [/^(\d{1,2})\/(\d{1,2})\/(\d{2})$/] *)
Definition match2 (s : string) : option (string * string * string) :=
  '(g1, r) <- digits1or2 s ;;
  r <- lit "/" r ;;
  '(g2, r) <- digits1or2 r ;;
  r <- lit "/" r ;;
  '(g3, r) <- digitsN 2 r ;;
  _ <- eos r ;;
  Some (g1, g2, g3).

(** [parseInt(year) > 50]; a comparison with [NaN] is false. *)
Definition gt50 (x : number) : bool :=
  match x with Some n => 50 <? n | None => false end.

Section WithRuntime.
Context `{Runtime}.

Definition parseDate (dateStr : string) : option Date :=
  if (dateStr =? "")%string || (dateStr =? "Unknown")%string || (dateStr =? "-")%string
  then None
  else
    match match1 dateStr with
    | Some (month, day, year) =>
        Some (newDate (parseInt year) (sub (parseInt month) (Some 1)) (parseInt day))
    | None =>
        match match2 dateStr with
        | Some (day, month, year) =>
            let fullYear :=
              if gt50 (parseInt year) then add (Some 1900) (parseInt year)
              else add (Some 2000) (parseInt year) in
            Some (newDate fullYear (sub (parseInt month) (Some 1)) (parseInt day))
        | None =>
            let parsed := newDateOfString dateStr in
            if negb (isNaN (getTime parsed)) then Some parsed else None
        end
    end.

(** ** Resolution time *)

Definition getResolutionDays (row : IssueRow) : string :=
  let createdStr := getCreatedOn row in
  let closedStr := getClosedOn row in
  if (closedStr =? "-")%string || (closedStr =? "Unknown")%string then "-"
  else
    match parseDate createdStr, parseDate closedStr with
    | Some createdDate, Some closedDate =>
        let diffTime := Math_abs (sub (getTime closedDate) (getTime createdDate)) in
        let diffDays := Math_ceil_div diffTime msPerDay in
        Number_toString diffDays
    | _, _ => "-"
    end.

(** ** Aggregation *)

(** [Record<string, number>], an object that begins as [{}]: its own
    properties in creation order.  The annotation is not checked when the
    program runs, so a property holds a number or a text. *)
Definition Counts : Type := list (string * cell).

(** The own property [k] of the accumulator, if it has one. *)
Fixpoint own (acc : Counts) (k : string) : option cell :=
  match acc with
  | [] => None
  | (k', v) :: rest => if (k' =? k)%string then Some v else own rest k
  end.

(** [acc[k]]: the own property, else what [Object.prototype] has under that
    name, else [undefined]. *)
Definition get (acc : Counts) (k : string) : property :=
  match own acc k with
  | Some v => Prim v
  | None => if isInherited k then Member k else Undefined
  end.

(** An own property is written: an existing one keeps its place, a new one
    is last. *)
Fixpoint put (acc : Counts) (k : string) (v : cell) : Counts :=
  match acc with
  | [] => [(k, v)]
  | (k', w) :: rest =>
      if (k' =? k)%string then (k', v) :: rest else (k', w) :: put rest k v
  end.

(** [acc[k] = v] for a number or a text [v].  Under [__proto__] the
    prototype has an accessor, and its setter discards a value that is not
    an object: nothing is stored.  Under any other name the object gets or
    updates a property of its own. *)
Definition set (acc : Counts) (k : string) (v : cell) : Counts :=
  if (k =? "__proto__")%string then acc else put acc k v.

(** [acc[k] = (acc[k] || 0) + 1] *)
Definition bump (acc : Counts) (k : string) : Counts :=
  set acc k (orZeroPlusOne (get acc k)).

(** [data.reduce((acc, row) => { const k = getter(row); ...; return acc }, {})] *)
Definition countBy (getter : IssueRow -> string) (data : list IssueRow) : Counts :=
  fold_left (fun acc row => bump acc (getter row)) data [].

Definition statusCounts : list IssueRow -> Counts := countBy getStatus.
Definition priorityCounts : list IssueRow -> Counts := countBy getPriority.
Definition typeCounts : list IssueRow -> Counts := countBy getType.
Definition stateCounts : list IssueRow -> Counts := countBy getState.

(** [Object.entries(counts).map(([name, value]) => ({ name, value }))] *)
Definition toChartData (counts : Counts) : list ChartData :=
  map (fun '(name, value) => mkChartData name value) (Object_entries counts).

(** [b.value - a.value].  A text in an accumulator is that of an inherited
    member followed by digits 1, which is no numeral: the difference is
    [NaN]. *)
Definition minus (x y : cell) : number :=
  match x, y with
  | Num a, Num b => Some (a - b)
  | _, _ => NaN
  end.

(** [.sort((a, b) => b.value - a.value)]: the sort is stable, so when the
    values are numbers its result is the one of a stable insertion sort,
    whatever algorithm the host runs.  A comparison that yields [NaN] counts
    as a tie; the language then leaves the order to the host, and the order
    given here is one of those it may produce. *)
Fixpoint insertDesc (a : ChartData) (l : list ChartData) : list ChartData :=
  match l with
  | [] => [a]
  | b :: l' =>
      match minus (value b) (value a) with
      | Some d => if 0 <? d then b :: insertDesc a l' else a :: l
      | None => a :: l
      end
  end.

Fixpoint sortDesc (l : list ChartData) : list ChartData :=
  match l with
  | [] => []
  | a :: l' => insertDesc a (sortDesc l')
  end.

Definition statusData (data : list IssueRow) : list ChartData :=
  toChartData (statusCounts data).
Definition priorityData (data : list IssueRow) : list ChartData :=
  toChartData (priorityCounts data).
Definition typeData (data : list IssueRow) : list ChartData :=
  toChartData (typeCounts data).
Definition stateData (data : list IssueRow) : list ChartData :=
  firstn 10 (sortDesc (toChartData (stateCounts data))).

Definition totalIssues (data : list IssueRow) : Z := Z.of_nat (List.length data).

(** ** Average resolution time *)

Definition resolutionTimes (data : list IssueRow) : list number :=
  let mapped : list (option number) :=
    map (fun row =>
           let days := getResolutionDays row in
           if negb (days =? "-")%string then Some (parseInt days) else None)
        data in
  flat_map (fun d => match d with Some n => [n] | None => [] end) mapped.

(** [sum / count] as a double *)
Definition divide (sum : number) (count : Z) : option Q :=
  match sum with Some a => Some (fdiv a count) | None => None end.

Definition avgResolutionTime (data : list IssueRow) : string :=
  let times := resolutionTimes data in
  if 0 <? Z.of_nat (List.length times)
  then toFixed1 (divide (fold_left add times (Some 0)) (Z.of_nat (List.length times)))
  else "0".

(** ** Filter *)

(** [{ type: string; value: string } | null] *)
Definition SelectedFilter : Type := option (string * string).

Definition filteredData (selectedFilter : SelectedFilter) (data : list IssueRow)
  : list IssueRow :=
  match selectedFilter with
  | Some (type, value) =>
      filter (fun row =>
                if (type =? "status")%string then (getStatus row =? value)%string
                else if (type =? "priority")%string then (getPriority row =? value)%string
                else if (type =? "type")%string then (getType row =? value)%string
                else if (type =? "state")%string then (getState row =? value)%string
                else true)
             data
  | None => []
  end.

End WithRuntime.

(** ** The remaining getters *)

Definition subjectNames : list string := ["subject"; "Subject"; "subject "; "Subject "].
Definition idNames : list string := ["id"; "ID"; "Id"; "id "].
Definition assignedToNames : list string :=
  ["assigned_to_id"; "Assigned To"; "assigned_to_id "].
Definition emailNames : list string :=
  ["email(assigned id)"; "Email"; "email(assigned id) "].
Definition dueDateNames : list string := ["due_date"; "Due Date"; "due_date "].
Definition descriptionNames : list string :=
  ["description"; "Description"; "description "].

(** [val === 'Unknown' ? '-' : val] *)
Definition dashIfUnknown (val : string) : string :=
  if (val =? "Unknown")%string then "-" else val.

Definition getSubject (row : IssueRow) : string :=
  dashIfUnknown (getColumnValue row subjectNames).
Definition getId (row : IssueRow) : string :=
  dashIfUnknown (getColumnValue row idNames).
Definition getAssignedTo (row : IssueRow) : string :=
  dashIfUnknown (getColumnValue row assignedToNames).
Definition getEmail (row : IssueRow) : string :=
  dashIfUnknown (getColumnValue row emailNames).
Definition getDueDate (row : IssueRow) : string :=
  dashIfUnknown (getColumnValue row dueDateNames).
Definition getDescription (row : IssueRow) : string :=
  dashIfUnknown (getColumnValue row descriptionNames).

(** ** Key figures *)

(** [statusCounts['Open'] || 0] *)
Definition openCount (data : list IssueRow) : property :=
  orZero (get (statusCounts data) "Open").

Definition closedCount (data : list IssueRow) : property :=
  orZero (get (statusCounts data) "Closed").

(** [priorityCounts['Urgent'] || priorityCounts['Urgent '] || 0] *)
Definition urgentCount (data : list IssueRow) : property :=
  orZero (por (get (priorityCounts data) "Urgent")
              (get (priorityCounts data) "Urgent ")).

(** ** The resolution badge of a table row *)

(** [x <= k]; a comparison with [NaN] is false. *)
Definition le (x : number) (k : Z) : bool :=
  match x with Some n => n <=? k | None => false end.

(** The colour classes of the badge for a resolution time, [None] where the
    row shows a plain dash. *)
Definition resolutionBadge (resolutionDays : string) : option string :=
  if negb (resolutionDays =? "-")%string then
    Some (if le (parseInt resolutionDays) 1 then "bg-green-100 text-green-700"
          else if le (parseInt resolutionDays) 7 then "bg-blue-100 text-blue-700"
          else if le (parseInt resolutionDays) 30 then "bg-amber-100 text-amber-700"
          else "bg-red-100 text-red-700")
  else None.

(** ** The state of the component and its handlers *)

Record State : Type := mkState {
  data : list IssueRow;
  loading : bool;
  fileName : string;
  selectedFilter : SelectedFilter;
  showModal : bool;
  searchId : string;
  searchResult : option IssueRow;
  showSearchModal : bool
}.

(** A handler leaves a state and the messages it put up with [alert]. *)
Definition Handled : Type := (State * list string)%type.

(** [handleSearch] *)
Definition handleSearch (st : State) : Handled :=
  if (trim (searchId st) =? "")%string then (st, [])
  else
    match find (fun row => (getId row =? trim (searchId st))%string) (data st) with
    | Some found =>
        (mkState (data st) (loading st) (fileName st) (selectedFilter st)
                 (showModal st) (searchId st) (Some found) true, [])
    | None => (st, ["No issue found with ID: " ++ searchId st])
    end.

(** [handleChartClick] *)
Definition handleChartClick (type name : string) (st : State) : State :=
  mkState (data st) (loading st) (fileName st) (Some (type, name)) true
          (searchId st) (searchResult st) (showSearchModal st).

(** What the reader of an uploaded file does in the end: it delivers rows,
    it throws while decoding (a workbook only), or it fails to read. *)
Inductive ReaderResult : Type :=
| Rows (rows : list IssueRow)
| Throws
| ReadError.

(** [file.name.split('.').pop()?.toLowerCase()] *)
Definition fileExtension (name : string) : option string :=
  match pop (split "." name) with
  | Some ext => Some (toLowerCase ext)
  | None => None
  end.

Inductive FileKind : Type := Csv | Excel | Unsupported.

(** The branch [handleFileUpload] takes for a file name. *)
Definition fileKind (name : string) : FileKind :=
  match fileExtension name with
  | Some ext =>
      if (ext =? "csv")%string then Csv
      else if negb (ext =? "")%string
              && existsb (fun e => (e =? ext)%string) ["xlsx"; "xls"]
      then Excel
      else Unsupported
  | None => Unsupported
  end.

(** [handleFileUpload], by the state once the reader has called back:
    [file] is the chosen file, by its name and what its reader does. *)
Definition handleFileUpload (file : option (string * ReaderResult)) (st : State)
  : Handled :=
  match file with
  | None => (st, [])
  | Some (name, result) =>
      let settle (rows : list IssueRow) :=
        mkState rows false name (selectedFilter st) (showModal st)
                (searchId st) (searchResult st) (showSearchModal st) in
      let stop :=
        mkState (data st) false name (selectedFilter st) (showModal st)
                (searchId st) (searchResult st) (showSearchModal st) in
      match fileKind name with
      | Csv =>
          match result with
          | Rows rows => (settle rows, [])
          | Throws | ReadError => (stop, ["Error parsing CSV file"])
          end
      | Excel =>
          match result with
          | Rows rows => (settle rows, [])
          | Throws => (stop, ["Error parsing Excel file"])
          | ReadError => (stop, ["Error reading file"])
          end
      | Unsupported =>
          (stop, ["Please upload a CSV or Excel file (.csv, .xlsx, .xls)"])
      end
  end.

End Local.

(* ================================================================== *)
(** * The remote-data variant *)
(* ================================================================== *)

Module Remote.

Section WithRuntime.
Context `{Runtime}.

(** [new Date(x)] for a cell *)
Definition newDateOfCell (x : option cell) : Date :=
  match x with
  | Some (Str s) => newDateOfString s
  | Some (Num n) => newDateOfNumber n
  | None => mkDate NaN
  end.

Definition getResolutionDays (row : IssueRow) : string :=
  if falsy (prop row "closed_on") || falsy (prop row "created_on") then "-"
  else
    let created := newDateOfCell (prop row "created_on") in
    let closed := newDateOfCell (prop row "closed_on") in
    if isNaN (getTime created) || isNaN (getTime closed) then "-"
    else
      let diffTime := Math_abs (sub (getTime closed) (getTime created)) in
      let diffDays := Math_ceil_div diffTime msPerDay in
      Number_toString diffDays.

End WithRuntime.

(** ** Getters *)

(** [x || y] *)
Definition orElse (x y : option cell) : option cell :=
  if falsy x then y else x.

(** [row["Issue tracker"] || row.Issue_tracker || '-'] *)
Definition getIssueTracker (row : IssueRow) : option cell :=
  orElse (orElse (prop row "Issue tracker") (prop row "Issue_tracker"))
         (Some (Str "-")).

Definition getState (row : IssueRow) : option cell :=
  orElse (prop row "State") (Some (Str "-")).
Definition getStatus (row : IssueRow) : option cell :=
  orElse (prop row "Status") (Some (Str "-")).

(** The outcome of a call that may throw. *)
Inductive Outcome (A : Type) : Type :=
| Returns (a : A)
| TypeError.
Arguments Returns {A} a.
Arguments TypeError {A}.

(** [(row.Priority || '-').trim()]: only a string has [trim]. *)
Definition getPriority (row : IssueRow) : Outcome string :=
  match orElse (prop row "Priority") (Some (Str "-")) with
  | Some (Str s) => Returns (trim s)
  | Some (Num _) | None => TypeError
  end.

(** ** Key figures *)

(** [interface Stats] *)
Record Stats : Type := mkStats {
  total : Z;
  byStatus : list ChartData;
  byPriority : list ChartData;
  byType : list ChartData;
  byState : list ChartData;
  avgResolutionDays : string
}.

(** [buckets.find(b => b.name === name)?.value || 0] *)
Definition countOf (buckets : list ChartData) (k : string) : property :=
  orZero (match find (fun b => (name b =? k)%string) buckets with
          | Some b => Prim (value b)
          | None => Undefined
          end).

(** [stats?.byStatus || []] *)
Definition statusData (stats : option Stats) : list ChartData :=
  match stats with Some st => byStatus st | None => [] end.

Definition priorityData (stats : option Stats) : list ChartData :=
  match stats with Some st => byPriority st | None => [] end.

Definition totalIssues (stats : option Stats) : Z :=
  match stats with Some st => if total st =? 0 then 0 else total st | None => 0 end.

Definition openCount (stats : option Stats) : property :=
  countOf (statusData stats) "Open".
Definition closedCount (stats : option Stats) : property :=
  countOf (statusData stats) "Closed".
Definition urgentCount (stats : option Stats) : property :=
  countOf (priorityData stats) "Urgent".

(** ** Requests *)

Definition API_URL : string := "http://localhost:5000/api".

(** The address [handleChartClick] asks for. *)
Definition filterUrl (type value : string) : string :=
  let url := API_URL ++ "/filter?" in
  if (type =? "status")%string then url ++ "status=" ++ encodeURIComponent value
  else if (type =? "priority")%string then url ++ "priority=" ++ encodeURIComponent value
  else if (type =? "type")%string then url ++ "type=" ++ encodeURIComponent value
  else if (type =? "state")%string then url ++ "state=" ++ encodeURIComponent value
  else url.

(** How a request ends: with its decoded body, or with a failure of the
    transport, a status that is not a success, or a body that is no JSON. *)
Inductive Fetched (A : Type) : Type :=
| Ok (body : A)
| Failed.
Arguments Ok {A} body.
Arguments Failed {A}.

Record State : Type := mkState {
  data : list IssueRow;
  stats : option Stats;
  loading : bool;
  error : string;
  selectedFilter : option (string * string);
  filteredData : list IssueRow;
  showModal : bool;
  searchId : string;
  searchResult : option IssueRow;
  showSearchModal : bool
}.

(** [fetchData], by the state once both requests are over.  The statistics
    are asked for only after the issues have arrived. *)
Definition fetchData (issues : Fetched (list IssueRow)) (statistics : Fetched Stats)
    (st : State) : State :=
  let failure := "Failed to connect to server. Make sure backend is running on port 5000." in
  match issues with
  | Failed =>
      mkState (data st) (stats st) false failure (selectedFilter st)
              (filteredData st) (showModal st) (searchId st) (searchResult st)
              (showSearchModal st)
  | Ok issuesData =>
      match statistics with
      | Failed =>
          mkState issuesData (stats st) false failure (selectedFilter st)
                  (filteredData st) (showModal st) (searchId st) (searchResult st)
                  (showSearchModal st)
      | Ok statsData =>
          mkState issuesData (Some statsData) false "" (selectedFilter st)
                  (filteredData st) (showModal st) (searchId st) (searchResult st)
                  (showSearchModal st)
      end
  end.

(** What the component renders. *)
Inductive Screen : Type := Spinner | ErrorScreen | Dashboard.

Definition screen (st : State) : Screen :=
  if loading st then Spinner
  else if negb (error st =? "")%string then ErrorScreen
  else Dashboard.

End Remote.

(* ================================================================== *)
(** * A reference host *)
(* ================================================================== *)

(** A host in the time zone UTC whose [Date] reads the slash form
    [M/D/YYYY], optionally followed by [H:MM], month first and as local time,
    as the browsers' engines do.  It reads months 1 to 12, days 1 to 28,
    years from 100 and times up to 23:59, and rejects everything else; its
    division is exact. *)

Definition slashDateTime (s : string) : option (Z * Z * Z * Z * Z) :=
  '(g1, r) <- digits1or2 s ;;
  r <- lit "/" r ;;
  '(g2, r) <- digits1or2 r ;;
  r <- lit "/" r ;;
  '(g3, r) <- digitsN 4 r ;;
  match r with
  | EmptyString =>
      Some (digitsValue 0 g1, digitsValue 0 g2, digitsValue 0 g3, 0, 0)
  | _ =>
      r <- spaces1 r ;;
      '(g4, r) <- digits1or2 r ;;
      r <- lit ":" r ;;
      '(g5, r) <- digitsN 2 r ;;
      _ <- eos r ;;
      Some (digitsValue 0 g1, digitsValue 0 g2, digitsValue 0 g3,
            digitsValue 0 g4, digitsValue 0 g5)
  end.

Definition hostDateParse (s : string) : number :=
  match slashDateTime s with
  | Some (month, day, year, hour, minute) =>
      if (1 <=? month) && (month <=? 12) && (1 <=? day) && (day <=? 28)
         && (100 <=? year) && (hour <=? 23) && (minute <=? 59)
      then Some (MakeDay year (month - 1) day * msPerDay
                 + hour * 3600000 + minute * 60000)
      else NaN
  | None => NaN
  end.

Definition hostDiv (a b : Z) : Q := (inject_Z a / inject_Z b)%Q.

Definition hostRuntime : Runtime.
Proof.
  refine {| UTC := fun t => t; DateParse := hostDateParse; fdiv := hostDiv |}.
  - intro t. replace (t - t) with 0 by lia. unfold msPerDay. simpl. lia.
  - intros a b Ha Hb. unfold hostDiv.
    assert (Hq : (0 <= inject_Z a / inject_Z b)%Q).
    { apply Qle_shift_div_l.
      - change 0%Q with (inject_Z 0). rewrite <- Zlt_Qlt. exact Hb.
      - rewrite Qmult_0_l. change 0%Q with (inject_Z 0). rewrite <- Zle_Qle.
        exact Ha. }
    setoid_replace (inject_Z a / inject_Z b - inject_Z a / inject_Z b)%Q
      with 0%Q by ring.
    change (Qabs 0) with 0%Q.
    apply Qmult_le_0_compat; [exact Hq | discriminate].
Defined.

(* ================================================================== *)
(** * Vocabulary of the statements *)
(* ================================================================== *)

Fixpoint allSpaces (s : string) : bool :=
  match s with
  | EmptyString => true
  | String c r => isWhiteSpace c && allSpaces r
  end.

(** A run of between [lo] and [hi] decimal digits: what [\d{lo,hi}] accepts. *)
Definition digitGroup (lo hi : nat) (g : string) : Prop :=
  allDigits g = true /\ (lo <= String.length g <= hi)%nat.

(** A non-empty run of whitespace: what [\s+] accepts. *)
Definition spaceRun (ws : string) : Prop :=
  allSpaces ws = true /\ ws <> "".

(** The decimal value of a digit group. *)
Definition decimal (g : string) : Z := digitsValue 0 g.

Definition startsWithSpace (s : string) : bool :=
  match s with String c _ => isWhiteSpace c | EmptyString => false end.

(** A date string that is handed to the host's [Date] as it stands: not
    empty, without surrounding whitespace, not a sentinel, and of neither of
    the two shapes the parser reads by itself. *)
Definition plainDate (s : string) : Prop :=
  s <> "" /\ trim s = s /\ s <> "-" /\ s <> "Unknown"
  /\ Local.match1 s = None /\ Local.match2 s = None.

(** The sum of a sequence of day counts. *)
Definition sumZ (l : list Z) : Z := fold_right Z.add 0 l.

(** The arithmetic mean of a non-empty sequence of day counts. *)
Definition mean (l : list Z) : Q :=
  (inject_Z (sumZ l) / inject_Z (Z.of_nat (List.length l)))%Q.

(** The records whose resolution time is known. *)
Definition resolved `{Runtime} (data : list IssueRow) : list IssueRow :=
  filter (fun row => negb (Local.getResolutionDays row =? "-")%string) data.

(** The sum of a sequence of numbers, [None] when one of them is a text. *)
Fixpoint sumCells (l : list cell) : option Z :=
  match l with
  | [] => Some 0
  | Num n :: r => match sumCells r with Some s => Some (n + s) | None => None end
  | Str _ :: _ => None
  end.

(** The sum of the counts of a sequence of buckets, [None] when one of them
    holds no number. *)
Definition sumValues (l : list ChartData) : option Z := sumCells (map value l).

(** No record resolves to a name that object literals inherit. *)
Definition plainKeys (getter : IssueRow -> string) (data : list IssueRow) : Prop :=
  Forall (fun row => isInherited (getter row) = false) data.

(** The number of records that a getter resolves to [v]. *)
Definition occurrences (getter : IssueRow -> string) (data : list IssueRow)
    (v : string) : nat :=
  count_occ string_dec (map getter data) v.

(** [buckets] is the full set of distinct values of a dimension: every
    resolved value has a bucket, no value has two, and each bucket counts the
    records that resolve to its name. *)
Definition fullBuckets (getter : IssueRow -> string) (data : list IssueRow)
    (buckets : list ChartData) : Prop :=
  NoDup (map name buckets)
  /\ (forall v, In v (map name buckets) <-> In v (map getter data))
  /\ (forall b, In b buckets ->
        value b = Num (Z.of_nat (occurrences getter data (name b)))).

(** A bucket that holds a count. *)
Definition numeric (b : ChartData) : Prop :=
  exists n : Z, value b = Num n /\ 0 <= n.

(** Non-increasing order of counts. *)
Definition geValue (a b : ChartData) : Prop :=
  exists x y : Z, value a = Num x /\ value b = Num y /\ y <= x.

(** The dimensions a chart offers for selection, each with its getter. *)
Definition dimensions : list (string * (IssueRow -> string)) :=
  [("status", Local.getStatus); ("priority", Local.getPriority);
   ("type", Local.getType); ("state", Local.getState)].

(** [n] times the digit 1. *)
Fixpoint ones (n : nat) : string :=
  match n with
  | O => EmptyString
  | S m => String "1" (ones m)
  end.

(** What an accumulator holds of its own for [k] after the values [l] were
    counted: nothing for a value that did not occur, and nothing for
    [__proto__]; for another inherited name the text of the member followed
    by one digit 1 for each occurrence; for any other value the number of
    its occurrences. *)
Definition counted (l : list string) (k : string) : option cell :=
  match count_occ string_dec l k with
  | O => None
  | S n =>
      if (k =? "__proto__")%string then None
      else if isInherited k then Some (Str (memberText k ++ ones (S n)))
      else Some (Num (Z.of_nat (S n)))
  end.

(** The accumulator holds just that, each key once. *)
Definition holds (acc : Local.Counts) (l : list string) : Prop :=
  NoDup (map fst acc) /\ forall k, Local.own acc k = counted l k.

(** One step of a pattern that succeeded. *)
Ltac step H E :=
  match type of H with
  | obind ?m _ = Some _ =>
      destruct m eqn:E; cbn [obind] in H; [|discriminate H]
  end.

(** The distinct elements of a list in the order of their first occurrence. *)
Fixpoint firstSeen (l : list string) : list string :=
  match l with
  | [] => []
  | x :: r => x :: filter (fun y => negb (y =? x)%string) (firstSeen r)
  end.

(** [y] is none of the keys [ks]. *)
Definition unseen (ks : list string) (y : string) : bool :=
  negb (existsb (fun k => (k =? y)%string) ks).

(** The four charts: the kind a click on each selects, its getter and the
    buckets it draws. *)
Definition charts (data : list IssueRow)
  : list (string * (IssueRow -> string) * list ChartData) :=
  [("status", Local.getStatus, Local.statusData data);
   ("priority", Local.getPriority, Local.priorityData data);
   ("type", Local.getType, Local.typeData data);
   ("state", Local.getState, Local.stateData data)].

(** The characters of a string. *)
Definition chars (s : string) : list ascii := list_ascii_of_string s.

(* ================================================================== *)
(** * Example records *)
(* ================================================================== *)

(** A spreadsheet row whose status cell is blank. *)
Definition rowBlankStatus : IssueRow := [("Status", Str "")].

(** A row with a blank status cell under one spelling of the header and a
    filled one under another. *)
Definition rowBlankThenOpen : IssueRow :=
  [("STATUS", Str ""); (" status", Str "Open")].

(** A row whose headers are upper-cased, with both a type and a tracker. *)
Definition rowTypeTracker : IssueRow :=
  [("TYPE", Str "Bug"); ("TRACKER", Str "Support")].

(** A row with both spellings of the status header as exact keys. *)
Definition rowTwoStatus : IssueRow :=
  [("status", Str " Closed "); ("Status", Str "Open")].

(** An issue opened and closed on the same day, with times of day. *)
Definition rowSameDay : IssueRow :=
  [("created_on", Str "3/5/2024 10:30"); ("closed_on", Str "3/5/2024 23:30")].

(** An issue closed two days after it was opened. *)
Definition rowTwoDays : IssueRow :=
  [("created_on", Str "1/1/2024"); ("closed_on", Str "1/3/2024")].

(** An issue whose closing date lies two days before its creation. *)
Definition rowBackwards : IssueRow :=
  [("created_on", Str "1/3/2024"); ("closed_on", Str "1/1/2024")].

(** An issue that is still open. *)
Definition rowOpen : IssueRow :=
  [("created_on", Str "1/1/2024"); ("Status", Str "Open")].

(** An issue whose status reads as the name of the prototype accessor,
    followed by an open one. *)
Definition protoThenOpen : list IssueRow :=
  [[("Status", Str "__proto__")]; [("Status", Str "Open")]].

(** Two issues whose status reads as the name of an inherited function,
    followed by an open one. *)
Definition constructorTwiceThenOpen : list IssueRow :=
  [[("Status", Str "constructor")]; [("Status", Str "constructor")];
   [("Status", Str "Open")]].

(** One open issue followed by two closed ones. *)
Definition openThenClosed : list IssueRow :=
  [[("Status", Str "Open")]; [("Status", Str "Closed")]; [("Status", Str "Closed")]].

(** Eleven issues, each in a state of its own. *)
Definition elevenStates : list IssueRow :=
  map (fun s => [("State", Str s)])
      ["a"; "b"; "c"; "d"; "e"; "f"; "g"; "h"; "i"; "j"; "k"].

(* ================================================================== *)
(** * Properties *)
(* ================================================================== *)

(** ** Column resolver *)

Section ColumnResolver.

Variable row : IssueRow.

Lemma exactPass_first (pre : list string) (a : string) (post : list string) :
  (forall b, In b pre -> present (prop row b) = false) ->
  present (prop row a) = true ->
  Local.exactPass row (pre ++ a :: post) = Some (trim (ToString (prop row a))).
Proof.
  induction pre as [|b pre IH]; intros Hpre Ha; simpl.
  - now rewrite Ha.
  - rewrite (Hpre b) by now left.
    apply IH; [intros c Hc; apply Hpre; now right | exact Ha].
Qed.

Lemma exactPass_none (names : list string) :
  (forall b, In b names -> present (prop row b) = false) ->
  Local.exactPass row names = None.
Proof.
  induction names as [|b names IH]; intros Hn; simpl; [reflexivity|].
  rewrite (Hn b) by now left.
  apply IH. intros c Hc. apply Hn. now right.
Qed.

Lemma fallbackPass_first (r : IssueRow) (names kpre : list string) (k : string)
    (kpost : list string) :
  (forall k', In k' kpre ->
     Local.aliasMatches (toLowerCase (trim k')) names = false) ->
  Local.aliasMatches (toLowerCase (trim k)) names = true ->
  Local.fallbackPass r (kpre ++ k :: kpost) names
  = Some (trim (ToString (prop r k))).
Proof.
  induction kpre as [|k' kpre IH]; intros Hpre Hk; simpl.
  - now rewrite Hk.
  - rewrite (Hpre k') by now left.
    apply IH; [intros c Hc; apply Hpre; now right | exact Hk].
Qed.

Lemma fallbackPass_none (r : IssueRow) (names ks : list string) :
  (forall k, In k ks -> Local.aliasMatches (toLowerCase (trim k)) names = false) ->
  Local.fallbackPass r ks names = None.
Proof.
  induction ks as [|k ks IH]; intros Hks; simpl; [reflexivity|].
  rewrite (Hks k) by now left.
  apply IH. intros c Hc. apply Hks. now right.
Qed.

(** With no usable exact key and no key that matches an alias once trimmed
    and lower-cased, the resolver answers ["Unknown"]. *)
Lemma getColumnValue_unknown (names : list string) :
  (forall b, In b names -> present (prop row b) = false) ->
  (forall k, In k (keys row) ->
     Local.aliasMatches (toLowerCase (trim k)) names = false) ->
  Local.getColumnValue row names = "Unknown".
Proof.
  intros He Hf. unfold Local.getColumnValue.
  now rewrite (exactPass_none names He), (fallbackPass_none row names (keys row) Hf).
Qed.

End ColumnResolver.

(** C1 (defect of the code): the resolver is to treat a cell holding the
    empty string as absent, to answer with a non-empty cell when an alias
    matches one, and to answer ["Unknown"] otherwise.  The first loop does
    skip an empty cell, the second loop does not.  For a row whose only status
    cell is blank, the key [Status] is found again by the case-insensitive
    comparison and the empty string itself is returned; and a blank cell
    under [STATUS] hides the filled cell under [ status] that follows it. *)
Theorem C1_blank_cell_is_returned :
  (present (prop rowBlankStatus "Status") = false
   /\ Local.getColumnValue rowBlankStatus Local.statusNames = "")
  /\ (toLowerCase (trim " status") = toLowerCase "status"
      /\ prop rowBlankThenOpen " status" = Some (Str "Open")
      /\ Local.getColumnValue rowBlankThenOpen Local.statusNames = "").
Proof. repeat split; reflexivity. Qed.

(** C2, as stated, fails in the second pass: [Tracker] is listed before
    [Type], both match a key of the row with a non-empty cell, and the value
    under [TYPE] is returned because that key comes first in the row. *)
Lemma C2_fallback_follows_key_order :
  nth_error Local.typeNames 5 = Some "Tracker"
  /\ nth_error Local.typeNames 6 = Some "Type"
  /\ toLowerCase (trim "TRACKER") = toLowerCase "Tracker"
  /\ prop rowTypeTracker "TRACKER" = Some (Str "Support")
  /\ toLowerCase (trim "TYPE") = toLowerCase "Type"
  /\ prop rowTypeTracker "TYPE" = Some (Str "Bug")
  /\ Local.getColumnValue rowTypeTracker Local.typeNames = "Bug".
Proof. repeat split; reflexivity. Qed.

(** C2 (amended): in the exact pass the earliest listed alias whose cell is
    present and not the empty string supplies the result, whatever later
    aliases match.  The second pass is reached only when no alias has such a
    cell, and there the order of the record's keys decides, not the order of
    the aliases: the first key that equals some alias after trimming and
    lower-casing supplies the result, when its cell is not blank.  What the
    second pass does with a blank cell is the defect of C1, and is left
    out.  The aliases that are tried and passed over are, as in every alias
    list of the program, not names of members of [Object.prototype], under
    which a record would read as present. *)
Theorem C2_precedence (row : IssueRow) :
  (forall (pre : list string) (a : string) (post : list string),
      (forall b, In b pre -> isInherited b = false) ->
      (forall b, In b pre -> present (prop row b) = false) ->
      present (prop row a) = true ->
      Local.getColumnValue row (pre ++ a :: post) = trim (ToString (prop row a)))
  /\
  (forall (names kpre : list string) (k : string) (kpost : list string),
      (forall b, In b names -> isInherited b = false) ->
      (forall b, In b names -> present (prop row b) = false) ->
      keys row = (kpre ++ k :: kpost)%list ->
      (forall k', In k' kpre ->
         Local.aliasMatches (toLowerCase (trim k')) names = false) ->
      Local.aliasMatches (toLowerCase (trim k)) names = true ->
      present (prop row k) = true ->
      Local.getColumnValue row names = trim (ToString (prop row k))).
Proof.
  split.
  - intros pre a post _ Hpre Ha. unfold Local.getColumnValue.
    now rewrite (exactPass_first row pre a post Hpre Ha).
  - intros names kpre k kpost _ Hnone Hkeys Hpre Hk _. unfold Local.getColumnValue.
    rewrite (exactPass_none row names Hnone), Hkeys.
    now rewrite (fallbackPass_first row names kpre k kpost Hpre Hk).
Qed.

(** C2 on two rows: the exact pass prefers [Status] to the key that comes
    first, the second pass answers with the first matching key. *)
Lemma C2_precedence_witness :
  Local.getColumnValue rowTwoStatus Local.statusNames = "Open"
  /\ Local.getColumnValue rowTypeTracker Local.typeNames = "Bug".
Proof.
  split.
  - apply (proj1 (C2_precedence rowTwoStatus) [] "Status" ["status"; "Status "]).
    + intros b [].
    + intros b [].
    + reflexivity.
  - apply (proj2 (C2_precedence rowTypeTracker) Local.typeNames [] "TYPE" ["TRACKER"]).
    + intros b Hb. simpl in Hb.
      repeat (destruct Hb as [<-|Hb]; [reflexivity|]). destruct Hb.
    + intros b Hb. simpl in Hb.
      repeat (destruct Hb as [<-|Hb]; [reflexivity|]). destruct Hb.
    + reflexivity.
    + intros k' [].
    + reflexivity.
    + reflexivity.
Defined.

(** ** Characters and the pieces of the patterns *)

Lemma isDigit_not_space (c : ascii) : isDigit c = true -> isWhiteSpace c = false.
Proof. unfold isDigit, isWhiteSpace. lia. Qed.

Lemma isDigit_neq (c x : ascii) :
  isDigit c = true -> isDigit x = false -> Ascii.eqb c x = false.
Proof.
  intros Hc Hx. apply Ascii.eqb_neq. intros ->. congruence.
Qed.

Lemma digits1or2_app (g r : string) :
  digitGroup 1 2 g -> startsWithDigit r = false ->
  digits1or2 (g ++ r) = Some (g, r).
Proof.
  intros [Hd Hl] Hr.
  destruct g as [|a [|b [|c g]]]; simpl in Hl; try lia.
  - simpl in Hd. rewrite andb_true_r in Hd.
    destruct r as [|x r]; simpl; rewrite Hd; [reflexivity|].
    simpl in Hr. now rewrite Hr.
  - simpl in Hd. rewrite andb_true_r in Hd.
    apply andb_true_iff in Hd as [Ha Hb].
    simpl. now rewrite Ha, Hb.
Qed.

Lemma digitsN_app (n : nat) : forall g r : string,
  allDigits g = true -> String.length g = n ->
  digitsN n (g ++ r) = Some (g, r).
Proof.
  induction n as [|n IH]; intros g r Hd Hl.
  - destruct g; [reflexivity | discriminate].
  - destruct g as [|a g]; [discriminate|].
    simpl in Hd. apply andb_true_iff in Hd as [Ha Hg].
    simpl. rewrite Ha, (IH g r Hg) by (simpl in Hl; lia). reflexivity.
Qed.

Lemma digitsN_short (n : nat) : forall s : string,
  allDigits s = true -> (String.length s < n)%nat -> digitsN n s = None.
Proof.
  induction n as [|n IH]; intros s Hd Hl; [lia|].
  destruct s as [|a s]; [reflexivity|].
  simpl in Hd. apply andb_true_iff in Hd as [Ha Hs].
  simpl. rewrite Ha, (IH s Hs) by (simpl in Hl; lia). reflexivity.
Qed.

Lemma trimStart_spaces (ws r : string) :
  allSpaces ws = true -> startsWithSpace r = false ->
  trimStart (ws ++ r) = r.
Proof.
  induction ws as [|c ws IH]; intros Hs Hr; simpl.
  - destruct r as [|x r]; [reflexivity|]. simpl in Hr. simpl. now rewrite Hr.
  - simpl in Hs. apply andb_true_iff in Hs as [Hc Hws].
    rewrite Hc. now apply IH.
Qed.

Lemma spaces1_app (ws r : string) :
  spaceRun ws -> startsWithSpace r = false -> spaces1 (ws ++ r) = Some r.
Proof.
  intros [Hs Hne] Hr. destruct ws as [|c ws]; [congruence|].
  simpl in Hs. apply andb_true_iff in Hs as [Hc Hws].
  simpl. rewrite Hc. f_equal. now apply trimStart_spaces.
Qed.

Lemma digitGroup_head (lo hi : nat) (g r : string) :
  digitGroup (S lo) hi g -> startsWithDigit (g ++ r) = true.
Proof.
  intros [Hd Hl]. destruct g as [|a g]; simpl in Hl; [lia|].
  simpl in Hd. apply andb_true_iff in Hd as [Ha _]. exact Ha.
Qed.

Lemma startsWithDigit_not_space (s : string) :
  startsWithDigit s = true -> startsWithSpace s = false.
Proof.
  destruct s as [|c s]; [discriminate|]. simpl. apply isDigit_not_space.
Qed.

Lemma startsWithDigit_not_sentinel (s : string) :
  startsWithDigit s = true ->
  ((s =? "") || (s =? "Unknown") || (s =? "-"))%string = false.
Proof.
  destruct s as [|c s]; [discriminate|]. simpl. intros Hc.
  rewrite (isDigit_neq c "U" Hc eq_refl), (isDigit_neq c "-" Hc eq_refl).
  reflexivity.
Qed.

Lemma parseInt_digitGroup (lo hi : nat) (g : string) :
  digitGroup (S lo) hi g -> parseInt g = Some (decimal g).
Proof.
  intros [Hd Hl]. destruct g as [|a g]; simpl in Hl; [lia|].
  simpl in Hd. apply andb_true_iff in Hd as [Ha _].
  unfold parseInt, decimal.
  destruct a as [b0 b1 b2 b3 b4 b5 b6 b7].
  destruct b0, b1, b2, b3, b4, b5, b6, b7; try discriminate Ha;
    destruct g; reflexivity.
Qed.

Lemma lit_app (c : ascii) (r : string) : lit c (String c EmptyString ++ r) = Some r.
Proof. simpl. now rewrite Ascii.eqb_refl. Qed.

Lemma append_empty_r (s : string) : s ++ "" = s.
Proof. induction s as [|a s IH]; simpl; [reflexivity | now rewrite IH]. Qed.

Lemma digitsN_exact (n : nat) (g : string) :
  allDigits g = true -> String.length g = n -> digitsN n g = Some (g, "").
Proof.
  intros Hd Hl. rewrite <- (digitsN_app n g "" Hd Hl).
  now rewrite append_empty_r.
Qed.

(** ** Date parser *)

Section DatePatterns.

Variables g1 g2 : string.
Hypothesis Hg1 : digitGroup 1 2 g1.
Hypothesis Hg2 : digitGroup 1 2 g2.

(** The first pattern accepts [g1/g2/YYYY], whitespace, [H:MM]. *)
Lemma match1_shape (y ws h mi : string) :
  digitGroup 4 4 y -> spaceRun ws -> digitGroup 1 2 h -> digitGroup 2 2 mi ->
  Local.match1 (g1 ++ "/" ++ g2 ++ "/" ++ y ++ ws ++ h ++ ":" ++ mi)
  = Some (g1, g2, y).
Proof.
  intros [Hy Hly] Hws Hh [Hmi Hlmi]. unfold Local.match1.
  rewrite (digits1or2_app g1 _ Hg1) by reflexivity. cbn [obind].
  rewrite lit_app. cbn [obind].
  rewrite (digits1or2_app g2 _ Hg2) by reflexivity. cbn [obind].
  rewrite lit_app. cbn [obind].
  rewrite (digitsN_app 4 y _ Hy) by lia. cbn [obind].
  rewrite (spaces1_app ws _ Hws)
    by (apply startsWithDigit_not_space; exact (digitGroup_head 0 2 h _ Hh)).
  cbn [obind].
  rewrite (digits1or2_app h _ Hh) by reflexivity. cbn [obind].
  rewrite lit_app. cbn [obind].
  rewrite (digitsN_exact 2 mi Hmi) by lia. reflexivity.
Qed.

(** The second pattern accepts [g1/g2/YY]; the first one rejects it. *)
Lemma match2_shape (y : string) :
  digitGroup 2 2 y ->
  Local.match1 (g1 ++ "/" ++ g2 ++ "/" ++ y) = None
  /\ Local.match2 (g1 ++ "/" ++ g2 ++ "/" ++ y) = Some (g1, g2, y).
Proof.
  intros [Hy Hly]. unfold Local.match1, Local.match2.
  rewrite (digits1or2_app g1 _ Hg1) by reflexivity. cbn [obind].
  rewrite lit_app. cbn [obind].
  rewrite (digits1or2_app g2 _ Hg2) by reflexivity. cbn [obind].
  rewrite lit_app. cbn [obind].
  rewrite (digitsN_short 4 y Hy) by lia.
  rewrite (digitsN_exact 2 y Hy) by lia. split; reflexivity.
Qed.

End DatePatterns.

Section DateParser.

Context {rt : Runtime}.

(** C3: the date parser reads [M/D/YYYY H:MM] month first and drops the time
    of day; it reads [D/M/YY] day first, with years above 50 in the 1900s and
    the others in the 2000s; the sentinels and a missing column are
    unparseable whatever the host would make of them; and a string that
    matches neither pattern and that the host's [Date] rejects is
    unparseable.  In each case the date is the one the [Date] constructor
    builds from (year, month - 1, day). *)
Theorem C3_date_formats :
  (forall m d y ws h mi : string,
      digitGroup 1 2 m -> digitGroup 1 2 d -> digitGroup 4 4 y ->
      spaceRun ws -> digitGroup 1 2 h -> digitGroup 2 2 mi ->
      Local.parseDate (m ++ "/" ++ d ++ "/" ++ y ++ ws ++ h ++ ":" ++ mi)
      = Some (newDate (Some (decimal y)) (Some (decimal m - 1)) (Some (decimal d))))
  /\ Local.parseDate "3/5/2024 10:30"
     = Some (newDate (Some 2024) (Some (3 - 1)) (Some 5))
  /\ (forall d m y : string,
      digitGroup 1 2 d -> digitGroup 1 2 m -> digitGroup 2 2 y ->
      Local.parseDate (d ++ "/" ++ m ++ "/" ++ y)
      = Some (newDate
                (Some (if 50 <? decimal y then 1900 + decimal y else 2000 + decimal y))
                (Some (decimal m - 1)) (Some (decimal d))))
  /\ Local.parseDate "5/3/24"
     = Some (newDate (Some 2024) (Some (3 - 1)) (Some 5))
  /\ (Local.parseDate "" = None /\ Local.parseDate "Unknown" = None
      /\ Local.parseDate "-" = None)
  /\ (forall row : IssueRow,
      Local.getColumnValue row Local.closedOnNames = "Unknown" ->
      Local.parseDate (Local.getClosedOn row) = None)
  /\ (forall s : string,
      Local.match1 s = None -> Local.match2 s = None -> DateParse s = NaN ->
      Local.parseDate s = None)
  /\ (DateParse "not a date" = NaN -> Local.parseDate "not a date" = None).
Proof.
  assert (P1 : forall m d y ws h mi : string,
      digitGroup 1 2 m -> digitGroup 1 2 d -> digitGroup 4 4 y ->
      spaceRun ws -> digitGroup 1 2 h -> digitGroup 2 2 mi ->
      Local.parseDate (m ++ "/" ++ d ++ "/" ++ y ++ ws ++ h ++ ":" ++ mi)
      = Some (newDate (Some (decimal y)) (Some (decimal m - 1)) (Some (decimal d)))).
  { intros m d y ws h mi Hm Hd Hy Hws Hh Hmi. unfold Local.parseDate.
    rewrite startsWithDigit_not_sentinel by exact (digitGroup_head 0 2 m _ Hm).
    rewrite (match1_shape m d Hm Hd y ws h mi Hy Hws Hh Hmi).
    rewrite (parseInt_digitGroup 0 2 m Hm), (parseInt_digitGroup 0 2 d Hd),
      (parseInt_digitGroup 3 4 y Hy).
    reflexivity. }
  assert (P2 : forall d m y : string,
      digitGroup 1 2 d -> digitGroup 1 2 m -> digitGroup 2 2 y ->
      Local.parseDate (d ++ "/" ++ m ++ "/" ++ y)
      = Some (newDate
                (Some (if 50 <? decimal y then 1900 + decimal y else 2000 + decimal y))
                (Some (decimal m - 1)) (Some (decimal d)))).
  { intros d m y Hd Hm Hy. unfold Local.parseDate.
    rewrite startsWithDigit_not_sentinel by exact (digitGroup_head 0 2 d _ Hd).
    destruct (match2_shape d m Hd Hm y Hy) as [-> ->].
    rewrite (parseInt_digitGroup 0 2 m Hm), (parseInt_digitGroup 0 2 d Hd),
      (parseInt_digitGroup 1 2 y Hy).
    cbn [Local.gt50]. destruct (50 <? decimal y); reflexivity. }
  assert (P4 : forall s : string,
      Local.match1 s = None -> Local.match2 s = None -> DateParse s = NaN ->
      Local.parseDate s = None).
  { intros s H1 H2 Hp. unfold Local.parseDate, newDateOfString.
    rewrite H1, H2. cbn [getTime]. rewrite Hp.
    now destruct ((s =? "") || (s =? "Unknown") || (s =? "-"))%string. }
  split; [exact P1|].
  split; [reflexivity|].
  split; [exact P2|].
  split; [reflexivity|].
  split; [repeat split; reflexivity|].
  split.
  { intros row Hr. unfold Local.getClosedOn. now rewrite Hr. }
  split; [exact P4|].
  intros Hp. now apply P4.
Qed.

End DateParser.

(** C3 on the reference host: the last minute of 1999 in both shapes, an
    issue without a closing date, and a string that is no date. *)
Lemma C3_date_formats_witness :
  @Local.parseDate hostRuntime "12/31/1999  23:59"
  = Some (@newDate hostRuntime (Some 1999) (Some 11) (Some 31))
  /\ @Local.parseDate hostRuntime "31/12/99"
     = Some (@newDate hostRuntime (Some 1999) (Some 11) (Some 31))
  /\ @Local.parseDate hostRuntime (Local.getClosedOn rowOpen) = None
  /\ @Local.parseDate hostRuntime "not a date" = None.
Proof.
  pose proof (@C3_date_formats hostRuntime)
    as (P1 & _ & P2 & _ & _ & P3 & _ & P4).
  split; [|split; [|split]].
  - apply (P1 "12" "31" "1999" "  " "23" "59");
      repeat split; try reflexivity; simpl; try lia; discriminate.
  - apply (P2 "31" "12" "99"); repeat split; try reflexivity; simpl; lia.
  - apply P3. reflexivity.
  - apply P4. reflexivity.
Defined.

(** ** What the patterns capture *)

Lemma digits1or2_sound (s g r : string) :
  digits1or2 s = Some (g, r) -> digitGroup 1 2 g.
Proof.
  unfold digits1or2, digitGroup.
  destruct s as [|a [|b s]]; [discriminate | |].
  - destruct (isDigit a) eqn:Ha; [|discriminate].
    intros [= <- <-]. simpl. rewrite Ha. split; [reflexivity | lia].
  - destruct (isDigit a) eqn:Ha; [|discriminate].
    destruct (isDigit b) eqn:Hb; intros [= <- <-]; simpl; rewrite Ha, ?Hb;
      (split; [reflexivity | lia]).
Qed.

Lemma digitsN_sound (n : nat) : forall s g r : string,
  digitsN n s = Some (g, r) -> digitGroup n n g.
Proof.
  unfold digitGroup.
  induction n as [|n IH]; intros s g r; simpl.
  - intros [= <- <-]. split; [reflexivity | simpl; lia].
  - destruct s as [|a s]; [discriminate|].
    destruct (isDigit a) eqn:Ha; [|discriminate].
    destruct (digitsN n s) as [[g' r']|] eqn:E; [|discriminate].
    cbn [obind]. intros [= <- <-].
    destruct (IH s g' r' E) as [Hd Hl].
    simpl. rewrite Ha, Hd. split; [reflexivity | lia].
Qed.

Lemma match1_sound (s g1 g2 g3 : string) :
  Local.match1 s = Some (g1, g2, g3) ->
  digitGroup 1 2 g1 /\ digitGroup 1 2 g2 /\ digitGroup 4 4 g3.
Proof.
  unfold Local.match1. intros H.
  step H E1. destruct p as [a1 r1]. step H L1.
  step H E2. destruct p as [a2 r2]. step H L2.
  step H E3. destruct p as [a3 r3]. step H S1.
  step H E4. destruct p as [a4 r4]. step H L3.
  step H E5. destruct p as [a5 r5]. step H Z1.
  injection H as <- <- <-.
  split; [|split];
    first [eapply digits1or2_sound; eassumption | eapply digitsN_sound; eassumption].
Qed.

Lemma match2_sound (s g1 g2 g3 : string) :
  Local.match2 s = Some (g1, g2, g3) ->
  digitGroup 1 2 g1 /\ digitGroup 1 2 g2 /\ digitGroup 2 2 g3.
Proof.
  unfold Local.match2. intros H.
  step H E1. destruct p as [a1 r1]. step H L1.
  step H E2. destruct p as [a2 r2]. step H L2.
  step H E3. destruct p as [a3 r3]. step H Z1.
  injection H as <- <- <-.
  split; [|split];
    first [eapply digits1or2_sound; eassumption | eapply digitsN_sound; eassumption].
Qed.

(** Conversely, a string a pattern accepts is built as the pattern says, so
    the matchers accept exactly the strings of the two shapes. *)

Lemma digits1or2_inv (s g r : string) :
  digits1or2 s = Some (g, r) -> s = g ++ r.
Proof.
  unfold digits1or2.
  destruct s as [|a [|b s]]; [discriminate | |].
  - destruct (isDigit a); [|discriminate]. now intros [= <- <-].
  - destruct (isDigit a); [|discriminate].
    destruct (isDigit b); now intros [= <- <-].
Qed.

Lemma digitsN_inv (n : nat) : forall s g r : string,
  digitsN n s = Some (g, r) -> s = g ++ r.
Proof.
  induction n as [|n IH]; intros s g r; simpl.
  - now intros [= <- <-].
  - destruct s as [|a s]; [discriminate|].
    destruct (isDigit a); [|discriminate].
    destruct (digitsN n s) as [[g' r']|] eqn:E; [|discriminate].
    cbn [obind]. intros [= <- <-]. simpl. f_equal. now apply IH.
Qed.

Lemma lit_inv (c : ascii) (s r : string) : lit c s = Some r -> s = String c r.
Proof.
  unfold lit. destruct s as [|a s]; [discriminate|].
  destruct (Ascii.eqb_spec a c) as [->|]; [|discriminate]. now intros [= <-].
Qed.

Lemma trimStart_split (s : string) :
  exists ws, allSpaces ws = true /\ s = ws ++ trimStart s.
Proof.
  induction s as [|c s (ws & Hws & Hs)].
  - now exists "".
  - simpl. destruct (isWhiteSpace c) eqn:Hc.
    + exists (String c ws). simpl. rewrite Hc, Hws. split; [reflexivity|].
      now rewrite <- Hs.
    + now exists "".
Qed.

Lemma spaces1_inv (s r : string) :
  spaces1 s = Some r -> exists ws, spaceRun ws /\ s = ws ++ r.
Proof.
  unfold spaces1. destruct s as [|a s]; [discriminate|].
  destruct (isWhiteSpace a) eqn:Ha; [|discriminate]. intros [= <-].
  destruct (trimStart_split s) as (ws & Hws & Hs).
  exists (String a ws). split.
  - split; [simpl; now rewrite Ha, Hws | discriminate].
  - simpl. now rewrite <- Hs.
Qed.

Lemma eos_inv (s : string) (u : unit) : eos s = Some u -> s = "".
Proof. destruct s; [reflexivity | discriminate]. Qed.

Lemma match1_inv (s g1 g2 g3 : string) :
  Local.match1 s = Some (g1, g2, g3) ->
  exists ws h mi : string,
    spaceRun ws /\ digitGroup 1 2 h /\ digitGroup 2 2 mi
    /\ s = g1 ++ "/" ++ g2 ++ "/" ++ g3 ++ ws ++ h ++ ":" ++ mi.
Proof.
  unfold Local.match1. intros H.
  step H E1. destruct p as [a1 r1]. step H L1.
  step H E2. destruct p as [a2 r2]. step H L2.
  step H E3. destruct p as [a3 r3]. step H S1.
  step H E4. destruct p as [a4 r4]. step H L3.
  step H E5. destruct p as [a5 r5]. step H Z1.
  injection H as <- <- <-.
  destruct (spaces1_inv _ _ S1) as (ws & Hws & Hs).
  exists ws, a4, a5.
  split; [exact Hws|].
  split; [exact (digits1or2_sound _ _ _ E4)|].
  split; [exact (digitsN_sound _ _ _ _ E5)|].
  rewrite (digits1or2_inv _ _ _ E1), (lit_inv _ _ _ L1),
    (digits1or2_inv _ _ _ E2), (lit_inv _ _ _ L2), (digitsN_inv _ _ _ _ E3), Hs,
    (digits1or2_inv _ _ _ E4), (lit_inv _ _ _ L3), (digitsN_inv _ _ _ _ E5),
    (eos_inv _ _ Z1).
  simpl. now rewrite append_empty_r.
Qed.

Lemma match2_inv (s g1 g2 g3 : string) :
  Local.match2 s = Some (g1, g2, g3) -> s = g1 ++ "/" ++ g2 ++ "/" ++ g3.
Proof.
  unfold Local.match2. intros H.
  step H E1. destruct p as [a1 r1]. step H L1.
  step H E2. destruct p as [a2 r2]. step H L2.
  step H E3. destruct p as [a3 r3]. step H Z1.
  injection H as <- <- <-.
  rewrite (digits1or2_inv _ _ _ E1), (lit_inv _ _ _ L1),
    (digits1or2_inv _ _ _ E2), (lit_inv _ _ _ L2), (digitsN_inv _ _ _ _ E3),
    (eos_inv _ _ Z1).
  simpl. now rewrite append_empty_r.
Qed.

Lemma isDigit_value (c : ascii) : isDigit c = true -> 0 <= digitValue c <= 9.
Proof. unfold isDigit, digitValue. lia. Qed.

Lemma digitsValue_bounds (g : string) : forall acc : Z,
  allDigits g = true -> 0 <= acc ->
  acc * 10 ^ Z.of_nat (String.length g) <= digitsValue acc g
  < (acc + 1) * 10 ^ Z.of_nat (String.length g).
Proof.
  induction g as [|c g IH]; intros acc Hd Hacc.
  - simpl. lia.
  - simpl in Hd. apply andb_true_iff in Hd as [Hc Hg].
    pose proof (isDigit_value c Hc) as Hv.
    cbn [digitsValue String.length]. rewrite Hc.
    specialize (IH (10 * acc + digitValue c) Hg ltac:(lia)).
    rewrite Nat2Z.inj_succ, Z.pow_succ_r by lia.
    assert (0 < 10 ^ Z.of_nat (String.length g)) by (apply Z.pow_pos_nonneg; lia).
    nia.
Qed.

Lemma decimal_bounds (lo hi : nat) (g : string) :
  digitGroup lo hi g -> 0 <= decimal g < 10 ^ Z.of_nat hi.
Proof.
  intros [Hd Hl]. unfold decimal.
  pose proof (digitsValue_bounds g 0 Hd ltac:(lia)) as Hb.
  assert (10 ^ Z.of_nat (String.length g) <= 10 ^ Z.of_nat hi)
    by (apply Z.pow_le_mono_r; lia).
  lia.
Qed.

Lemma decimal_two_digits (lo : nat) (g : string) :
  digitGroup lo 2 g -> 0 <= decimal g <= 99.
Proof. intros Hg. pose proof (decimal_bounds lo 2 g Hg) as Hb. simpl in Hb. lia. Qed.

Lemma decimal_four_digits (lo : nat) (g : string) :
  digitGroup lo 4 g -> 0 <= decimal g <= 9999.
Proof. intros Hg. pose proof (decimal_bounds lo 4 g Hg) as Hb. simpl in Hb. lia. Qed.

(** ** Dates built from captured groups are valid *)

Lemma monthStart_bounds (leap : bool) (mn : Z) : 0 <= monthStart leap mn <= 335.
Proof.
  unfold monthStart. destruct leap;
    repeat match goal with
           | |- context [match ?x with _ => _ end] => destruct x
           end; lia.
Qed.

Lemma MakeDay_bounds (y m d : Z) :
  0 <= y <= 9999 -> -1 <= m <= 98 -> 0 <= d <= 99 ->
  -721000 <= MakeDay y m d <= 2941000.
Proof.
  intros Hy Hm Hd. unfold MakeDay, DayFromYear.
  pose proof (monthStart_bounds (InLeapYear (y + m / 12)) (m mod 12)) as Hs.
  revert Hs. generalize (monthStart (InLeapYear (y + m / 12)) (m mod 12)).
  intros k Hk. Z.div_mod_to_equations. lia.
Qed.

Section DatesAreValid.

Context {rt : Runtime}.

Lemma newDate_valid (y m d : Z) :
  0 <= y <= 9999 -> -1 <= m <= 98 -> 0 <= d <= 99 ->
  exists t, getTime (newDate (Some y) (Some m) (Some d)) = Some t.
Proof.
  intros Hy Hm Hd. unfold newDate, TimeClip. cbn [getTime].
  assert (Hf : 0 <= MakeFullYear y <= 9999).
  { unfold MakeFullYear. destruct ((0 <=? y) && (y <=? 99)) eqn:E; lia. }
  pose proof (MakeDay_bounds (MakeFullYear y) m d Hf Hm Hd) as Hb.
  pose proof (UTC_near (MakeDay (MakeFullYear y) m d * msPerDay)) as Hu.
  revert Hb Hu. generalize (MakeDay (MakeFullYear y) m d). intros k Hb Hu.
  unfold msPerDay in *.
  destruct (Z.abs (UTC (k * (1000 * 60 * 60 * 24))) <=? 8640000000000000) eqn:E.
  - eauto.
  - exfalso. lia.
Qed.

(** A date the parser returns is never an invalid [Date]. *)
Lemma parseDate_valid (s : string) (d : Date) :
  Local.parseDate s = Some d -> exists t, getTime d = Some t.
Proof.
  unfold Local.parseDate.
  destruct ((s =? "") || (s =? "Unknown") || (s =? "-"))%string; [discriminate|].
  destruct (Local.match1 s) as [[[month day] year]|] eqn:E1.
  - destruct (match1_sound s month day year E1) as (Hm & Hd & Hy).
    rewrite (parseInt_digitGroup 0 2 month Hm), (parseInt_digitGroup 0 2 day Hd),
      (parseInt_digitGroup 3 4 year Hy).
    pose proof (decimal_two_digits _ _ Hm). pose proof (decimal_two_digits _ _ Hd).
    pose proof (decimal_four_digits _ _ Hy).
    intros [= <-].
    exact (newDate_valid (decimal year) (decimal month - 1) (decimal day)
             ltac:(lia) ltac:(lia) ltac:(lia)).
  - destruct (Local.match2 s) as [[[day month] year]|] eqn:E2.
    + destruct (match2_sound s day month year E2) as (Hd & Hm & Hy).
      rewrite (parseInt_digitGroup 0 2 month Hm), (parseInt_digitGroup 0 2 day Hd),
        (parseInt_digitGroup 1 2 year Hy).
      pose proof (decimal_two_digits _ _ Hm). pose proof (decimal_two_digits _ _ Hd).
      pose proof (decimal_two_digits _ _ Hy).
      intros [= <-]. unfold Local.gt50, JS.add, JS.sub, JS.lift2.
      destruct (50 <? decimal year).
      * exact (newDate_valid (1900 + decimal year) (decimal month - 1) (decimal day)
                 ltac:(lia) ltac:(lia) ltac:(lia)).
      * exact (newDate_valid (2000 + decimal year) (decimal month - 1) (decimal day)
                 ltac:(lia) ltac:(lia) ltac:(lia)).
    + unfold newDateOfString. cbn [getTime].
      destruct (DateParse s) as [t|]; [|discriminate].
      intros [= <-]. cbn [getTime]. eauto.
Qed.

End DatesAreValid.

(** ** Rendering of counts *)

Lemma Number_toString_not_dash (n : Z) :
  0 <= n -> Number_toString (Some n) <> "-".
Proof.
  intros Hn. unfold Number_toString.
  destruct n as [|p|p]; [discriminate | | lia].
  simpl. destruct (Pos.to_uint p); discriminate.
Qed.

Lemma ceil_div_spec (a d : Z) :
  0 <= a -> 0 < d ->
  0 <= - ((- a) / d) /\ (- ((- a) / d) - 1) * d < a <= - ((- a) / d) * d.
Proof.
  intros Ha Hd. Z.div_mod_to_equations. nia.
Qed.

(** ** Resolution time *)

Section ResolutionTime.

Context {rt : Runtime}.

Lemma getResolutionDays_parsed (row : IssueRow) (c d : Date) (tc td : Z) :
  Local.getClosedOn row <> "-" -> Local.getClosedOn row <> "Unknown" ->
  Local.parseDate (Local.getCreatedOn row) = Some c ->
  Local.parseDate (Local.getClosedOn row) = Some d ->
  getTime c = Some tc -> getTime d = Some td ->
  Local.getResolutionDays row
  = Number_toString (Some (- ((- Z.abs (td - tc)) / msPerDay))).
Proof.
  intros H1 H2 Hc Hd Htc Htd. unfold Local.getResolutionDays.
  destruct (String.eqb_spec (Local.getClosedOn row) "-") as [E|_]; [contradiction|].
  destruct (String.eqb_spec (Local.getClosedOn row) "Unknown") as [E|_]; [contradiction|].
  cbn [orb]. rewrite Hc, Hd, Htc, Htd. reflexivity.
Qed.

(** Two dates that parse give a count of days. *)
Lemma getResolutionDays_count (row : IssueRow) (c d : Date) :
  Local.getClosedOn row <> "-" -> Local.getClosedOn row <> "Unknown" ->
  Local.parseDate (Local.getCreatedOn row) = Some c ->
  Local.parseDate (Local.getClosedOn row) = Some d ->
  exists tc td n : Z,
    getTime c = Some tc /\ getTime d = Some td
    /\ 0 <= n
    /\ (n - 1) * 86400000 < Z.abs (td - tc) <= n * 86400000
    /\ Local.getResolutionDays row = Number_toString (Some n).
Proof.
  intros H1 H2 Hc Hd.
  destruct (parseDate_valid _ _ Hc) as [tc Htc].
  destruct (parseDate_valid _ _ Hd) as [td Htd].
  exists tc, td, (- ((- Z.abs (td - tc)) / msPerDay)).
  pose proof (ceil_div_spec (Z.abs (td - tc)) msPerDay (Z.abs_nonneg _) eq_refl)
    as (Hn & Hlo & Hhi).
  change 86400000 with msPerDay.
  repeat split; try assumption.
  now apply getResolutionDays_parsed with (c := c) (d := d).
Qed.

(** The calculator answers the sentinel or the decimal form of a count. *)
Lemma getResolutionDays_cases (row : IssueRow) :
  Local.getResolutionDays row = "-"
  \/ exists n : Z, 0 <= n /\ Local.getResolutionDays row = Number_toString (Some n).
Proof.
  destruct (String.eqb_spec (Local.getClosedOn row) "-") as [E1|N1].
  { left. unfold Local.getResolutionDays. now rewrite E1. }
  destruct (String.eqb_spec (Local.getClosedOn row) "Unknown") as [E2|N2].
  { left. unfold Local.getResolutionDays. now rewrite E2. }
  destruct (Local.parseDate (Local.getCreatedOn row)) as [c|] eqn:Hc.
  - destruct (Local.parseDate (Local.getClosedOn row)) as [d|] eqn:Hd.
    + right.
      destruct (getResolutionDays_count row c d N1 N2 Hc Hd)
        as (tc & td & n & _ & _ & Hn & _ & Hs).
      now exists n.
    + left. unfold Local.getResolutionDays. rewrite Hc, Hd.
      now destruct ((Local.getClosedOn row =? "-")
                    || (Local.getClosedOn row =? "Unknown"))%string.
  - left. unfold Local.getResolutionDays. rewrite Hc.
    now destruct ((Local.getClosedOn row =? "-")
                  || (Local.getClosedOn row =? "Unknown"))%string.
Qed.

(** C4: the calculator answers ["-"] exactly when the closing date is the
    sentinel or one of the two dates does not parse; otherwise both dates are
    valid and, the two being less than 2^53 ms apart, it answers the decimal
    form of the non-negative integer ceil(|closed - created| / 86 400 000).
    Up to that distance, some 285 000 years, the doubles the code computes
    with hold the difference and the ceiling of the quotient exactly.  It is
    a total function, so no record makes it fail, and a date that does not
    parse yields ["-"], never a number. *)
Theorem C4_resolution_days (row : IssueRow) :
  (Local.getResolutionDays row = "-" <->
     Local.getClosedOn row = "-" \/ Local.getClosedOn row = "Unknown"
     \/ Local.parseDate (Local.getCreatedOn row) = None
     \/ Local.parseDate (Local.getClosedOn row) = None)
  /\
  (forall c d : Date,
      Local.getClosedOn row <> "-" -> Local.getClosedOn row <> "Unknown" ->
      Local.parseDate (Local.getCreatedOn row) = Some c ->
      Local.parseDate (Local.getClosedOn row) = Some d ->
      exists tc td : Z,
        getTime c = Some tc /\ getTime d = Some td
        /\ (Z.abs (td - tc) < 9007199254740992 ->
            exists n : Z,
              0 <= n
              /\ (n - 1) * 86400000 < Z.abs (td - tc) <= n * 86400000
              /\ Local.getResolutionDays row = Number_toString (Some n))).
Proof.
  split.
  2:{ intros c d N1 N2 Hc Hd.
      destruct (getResolutionDays_count row c d N1 N2 Hc Hd)
        as (tc & td & n & Htc & Htd & Hn & Hb & Hs).
      exists tc, td. split; [exact Htc|]. split; [exact Htd|].
      intros _. exists n. split; [exact Hn|]. split; [exact Hb | exact Hs]. }
  split.
  - intros Hr.
    destruct (String.eqb_spec (Local.getClosedOn row) "-") as [E1|N1]; [now left|].
    destruct (String.eqb_spec (Local.getClosedOn row) "Unknown") as [E2|N2];
      [now right; left|].
    destruct (Local.parseDate (Local.getCreatedOn row)) as [c|] eqn:Hc;
      [|now right; right; left].
    destruct (Local.parseDate (Local.getClosedOn row)) as [d|] eqn:Hd;
      [|now right; right; right].
    exfalso.
    destruct (getResolutionDays_count row c d N1 N2 Hc Hd)
      as (tc & td & n & _ & _ & Hn & _ & Hs).
    rewrite Hs in Hr. exact (Number_toString_not_dash n Hn Hr).
  - unfold Local.getResolutionDays.
    intros [E|[E|[E|E]]]; rewrite ?E; try reflexivity.
    + destruct ((Local.getClosedOn row =? "-") || (Local.getClosedOn row =? "Unknown"))%string;
        reflexivity.
    + destruct ((Local.getClosedOn row =? "-") || (Local.getClosedOn row =? "Unknown"))%string;
        [reflexivity|].
      now destruct (Local.parseDate (Local.getCreatedOn row)).
Qed.

End ResolutionTime.

(** On the reference host: two days between 1 and 3 January 2024; no closing
    date, no duration. *)
Example resolution_two_days :
  @Local.getResolutionDays hostRuntime rowTwoDays = "2"
  /\ @Local.getResolutionDays hostRuntime rowOpen = "-".
Proof. split; vm_compute; reflexivity. Qed.

(** C4 on the reference host: from 1 to 3 January 2024 there are two days. *)
Lemma C4_resolution_days_witness :
  @Local.getResolutionDays hostRuntime rowTwoDays = "2".
Proof.
  destruct (proj2 (@C4_resolution_days hostRuntime rowTwoDays)
              (mkDate (Some 1704067200000)) (mkDate (Some 1704240000000)))
    as (tc & td & Htc & Htd & Hdays).
  - discriminate.
  - discriminate.
  - reflexivity.
  - reflexivity.
  - cbn [getTime] in Htc, Htd.
    injection Htc as <-. injection Htd as <-.
    destruct Hdays as (n & Hn & Hb & Hs); [lia|].
    assert (n = 2) as -> by lia. exact Hs.
Defined.

(** ** The two variants of the resolution time *)

Section Variants.

Context {rt : Runtime}.

Lemma getColumnValue_first_alias (row : IssueRow) (a : string) (rest : list string)
    (s : string) :
  prop row a = Some (Str s) -> s <> "" -> trim s = s ->
  Local.getColumnValue row (a :: rest) = s.
Proof.
  intros Hp Hne Ht. unfold Local.getColumnValue. cbn [Local.exactPass].
  rewrite Hp. cbn [present ToString].
  destruct (String.eqb_spec s "") as [E|_]; [contradiction|].
  cbn [negb]. exact Ht.
Qed.

Lemma parseDate_plain (s : string) :
  plainDate s ->
  Local.parseDate s
  = if isNaN (DateParse s) then None else Some (mkDate (DateParse s)).
Proof.
  intros (Hne & _ & Hd & Hu & H1 & H2). unfold Local.parseDate.
  destruct (String.eqb_spec s "") as [E|_]; [contradiction|].
  destruct (String.eqb_spec s "Unknown") as [E|_]; [contradiction|].
  destruct (String.eqb_spec s "-") as [E|_]; [contradiction|].
  cbn [orb]. rewrite H1, H2. unfold newDateOfString. cbn [getTime].
  now destruct (DateParse s).
Qed.

(** C5 (amended): on a record whose [created_on] and [closed_on] cells hold
    date strings that the local parser hands to the host's [Date] unchanged,
    the two variants return the same string. *)
Theorem C5_variants_agree_on_plain_dates (row : IssueRow) (c d : string) :
  prop row "created_on" = Some (Str c) ->
  prop row "closed_on" = Some (Str d) ->
  plainDate c -> plainDate d ->
  Remote.getResolutionDays row = Local.getResolutionDays row.
Proof.
  intros Hc Hd Pc Pd.
  pose proof Pc as (Hcne & Hct & Hcd & Hcu & _).
  pose proof Pd as (Hdne & Hdt & Hdd & Hdu & _).
  assert (Ec : Local.getCreatedOn row = c).
  { unfold Local.getCreatedOn, Local.createdOnNames.
    rewrite (getColumnValue_first_alias row "created_on" _ c Hc Hcne Hct).
    now destruct (String.eqb_spec c "Unknown"). }
  assert (Ed : Local.getClosedOn row = d).
  { unfold Local.getClosedOn, Local.closedOnNames.
    rewrite (getColumnValue_first_alias row "closed_on" _ d Hd Hdne Hdt).
    now destruct (String.eqb_spec d "Unknown"). }
  unfold Remote.getResolutionDays, Local.getResolutionDays.
  rewrite Ec, Ed, Hc, Hd. cbn [falsy Remote.newDateOfCell].
  destruct (String.eqb_spec c "") as [E|_]; [contradiction|].
  destruct (String.eqb_spec d "") as [E|_]; [contradiction|].
  destruct (String.eqb_spec d "Unknown") as [E|_]; [contradiction|].
  destruct (String.eqb_spec d "-") as [E|_]; [contradiction|].
  cbn [orb]. rewrite (parseDate_plain c Pc), (parseDate_plain d Pd).
  unfold newDateOfString. cbn [getTime].
  destruct (DateParse c), (DateParse d); reflexivity.
Qed.

End Variants.

(** C5 on the reference host: both variants count the same two days. *)
Lemma C5_variants_agree_witness :
  @Remote.getResolutionDays hostRuntime rowTwoDays
  = @Local.getResolutionDays hostRuntime rowTwoDays.
Proof.
  apply (@C5_variants_agree_on_plain_dates hostRuntime rowTwoDays "1/1/2024" "1/3/2024");
    try reflexivity; repeat split; try reflexivity; discriminate.
Defined.

(** C5, as stated, fails: for an issue opened at 10:30 and closed at 23:30 on
    the same day the remote variant, which gives both strings to the host's
    [Date], counts the thirteen hours as one day, while the local variant
    reads both by its first pattern, drops the time of day and counts none. *)
Lemma C5_variants_differ :
  @Remote.getResolutionDays hostRuntime rowSameDay = "1"
  /\ @Local.getResolutionDays hostRuntime rowSameDay = "0".
Proof. split; vm_compute; reflexivity. Qed.

(** ** Aggregation: what an accumulator holds *)

Lemma append_assoc (a b c : string) : ((a ++ b) ++ c = a ++ (b ++ c))%string.
Proof. induction a as [|x a IH]; simpl; [reflexivity | now rewrite IH]. Qed.

Lemma ones_snoc (n : nat) : (ones n ++ "1")%string = ones (S n).
Proof. induction n as [|n IH]; [reflexivity|]. cbn [ones append]. now rewrite IH. Qed.

Lemma text_not_empty (t : string) (n : nat) :
  ((t ++ ones (S n)) =? "")%string = false.
Proof. now destruct t. Qed.

Lemma proto_inherited (k : string) :
  isInherited k = false -> (k =? "__proto__")%string = false.
Proof.
  intros H. destruct (String.eqb_spec k "__proto__") as [->|]; [discriminate H | reflexivity].
Qed.

Lemma get_plain (acc : Local.Counts) (k : string) :
  isInherited k = false ->
  Local.get acc k = match Local.own acc k with Some v => Prim v | None => Undefined end.
Proof. intros H. unfold Local.get. now rewrite H. Qed.

Lemma own_put_same (acc : Local.Counts) (k : string) (v : cell) :
  Local.own (Local.put acc k v) k = Some v.
Proof.
  induction acc as [|[k' w] acc IH]; cbn [Local.put Local.own].
  - now rewrite String.eqb_refl.
  - destruct (k' =? k)%string eqn:E; cbn [Local.own]; rewrite E; [reflexivity | exact IH].
Qed.

Lemma own_put_other (acc : Local.Counts) (k k' : string) (v : cell) :
  k <> k' -> Local.own (Local.put acc k v) k' = Local.own acc k'.
Proof.
  intros Hne. induction acc as [|[k0 w] acc IH]; cbn [Local.put Local.own].
  - destruct (String.eqb_spec k k'); [contradiction | reflexivity].
  - destruct (String.eqb_spec k0 k) as [->|Hk]; cbn [Local.own].
    + destruct (String.eqb_spec k k'); [contradiction | reflexivity].
    + now rewrite IH.
Qed.

Lemma own_none (acc : Local.Counts) (k : string) :
  Local.own acc k = None <-> ~ In k (map fst acc).
Proof.
  induction acc as [|[k' w] acc IH]; cbn [Local.own map fst In].
  - tauto.
  - destruct (String.eqb_spec k' k) as [->|Hk].
    + split; [discriminate | intros H; exfalso; apply H; now left].
    + rewrite IH. tauto.
Qed.

Lemma own_in (acc : Local.Counts) (k : string) (v : cell) :
  NoDup (map fst acc) -> In (k, v) acc -> Local.own acc k = Some v.
Proof.
  induction acc as [|[k' w] acc IH]; intros Hnd Hin; [destruct Hin|].
  cbn [map fst] in Hnd. inversion Hnd as [|? ? Hnotin Hnd']; subst.
  cbn [Local.own]. destruct Hin as [[= -> ->]|Hin].
  - now rewrite String.eqb_refl.
  - destruct (String.eqb_spec k' k) as [->|_]; [|now apply IH].
    exfalso. apply Hnotin. apply in_map_iff. now exists (k, v).
Qed.

Lemma in_own (acc : Local.Counts) (k : string) (v : cell) :
  Local.own acc k = Some v -> In (k, v) acc.
Proof.
  induction acc as [|[k' w] acc IH]; cbn [Local.own]; [discriminate|].
  destruct (String.eqb_spec k' k) as [->|_].
  - intros [= ->]. now left.
  - intros H. right. now apply IH.
Qed.

Lemma keys_put (acc : Local.Counts) (k : string) (v : cell) :
  map fst (Local.put acc k v)
  = match Local.own acc k with
    | Some _ => map fst acc
    | None => (map fst acc ++ [k])%list
    end.
Proof.
  induction acc as [|[k' w] acc IH]; cbn [Local.put Local.own]; [reflexivity|].
  destruct (k' =? k)%string; [reflexivity|].
  cbn [map fst]. rewrite IH. now destruct (Local.own acc k).
Qed.

Lemma counted_snoc_other (l : list string) (k k' : string) :
  k <> k' -> counted (l ++ [k]) k' = counted l k'.
Proof.
  intros Hne. unfold counted. rewrite count_occ_app. cbn [count_occ].
  destruct (string_dec k k') as [E|_]; [contradiction|]. now rewrite Nat.add_0_r.
Qed.

Lemma counted_proto (l : list string) : counted l "__proto__" = None.
Proof. unfold counted. now destruct (count_occ string_dec l "__proto__"). Qed.

Lemma bump_holds (acc : Local.Counts) (l : list string) (k : string) :
  holds acc l -> holds (Local.bump acc k) (l ++ [k]).
Proof.
  intros [Hnd Hown]. unfold Local.bump, Local.set.
  destruct (String.eqb_spec k "__proto__") as [->|Hproto].
  - split; [exact Hnd|]. intros k'.
    destruct (string_dec "__proto__" k') as [<-|Hne].
    + now rewrite Hown, !counted_proto.
    + now rewrite counted_snoc_other.
  - split.
    + rewrite keys_put. destruct (Local.own acc k) eqn:E; [exact Hnd|].
      apply NoDup_app.
      * exact Hnd.
      * constructor; [intros [] | constructor].
      * intros x Hx [<-|[]]. now apply own_none in E.
    + intros k'. destruct (string_dec k k') as [<-|Hne].
      * rewrite own_put_same. unfold Local.get. rewrite Hown.
        unfold counted. rewrite count_occ_app. cbn [count_occ].
        destruct (string_dec k k) as [_|N]; [|contradiction].
        apply String.eqb_neq in Hproto. rewrite Hproto.
        destruct (count_occ string_dec l k) as [|n]; cbn [Nat.add].
        -- destruct (isInherited k); reflexivity.
        -- replace (n + 1)%nat with (S n) by lia.
           destruct (isInherited k); cbn [orZeroPlusOne].
           ++ now rewrite text_not_empty, append_assoc, ones_snoc.
           ++ do 2 f_equal. lia.
      * rewrite own_put_other by exact Hne. rewrite Hown.
        now rewrite counted_snoc_other.
Qed.

Lemma countBy_holds (getter : IssueRow -> string) (data : list IssueRow) :
  holds (Local.countBy getter data) (map getter data).
Proof.
  unfold Local.countBy.
  assert (G : forall acc l, holds acc l ->
             holds (fold_left (fun a row => Local.bump a (getter row)) data acc)
                   (l ++ map getter data)).
  { induction data as [|row data IH]; intros acc l Ha.
    - simpl. now rewrite app_nil_r.
    - cbn [fold_left map].
      replace (l ++ getter row :: map getter data)%list
        with ((l ++ [getter row]) ++ map getter data)%list
        by now rewrite <- app_assoc.
      apply IH, bump_holds, Ha. }
  apply (G [] []). split; [constructor | reflexivity].
Qed.

(** Under a name that is not inherited the accumulator holds the number of
    occurrences, whatever else was counted. *)
Lemma counted_plain (l : list string) (k : string) :
  isInherited k = false ->
  counted l k = match count_occ string_dec l k with
                | O => None
                | S n => Some (Num (Z.of_nat (S n)))
                end.
Proof.
  intros H. unfold counted. now rewrite H, (proto_inherited k H).
Qed.

Lemma get_countBy (getter : IssueRow -> string) (data : list IssueRow) (k : string) :
  isInherited k = false ->
  Local.get (Local.countBy getter data) k
  = match occurrences getter data k with
    | O => Undefined
    | S n => Prim (Num (Z.of_nat (S n)))
    end.
Proof.
  intros H. destruct (countBy_holds getter data) as [_ Hown].
  rewrite (get_plain _ _ H), Hown, (counted_plain _ _ H). unfold occurrences.
  now destruct (count_occ string_dec (map getter data) k).
Qed.

Lemma orZero_get_countBy (getter : IssueRow -> string) (data : list IssueRow)
    (k : string) :
  isInherited k = false ->
  orZero (Local.get (Local.countBy getter data) k)
  = Prim (Num (Z.of_nat (occurrences getter data k))).
Proof.
  intros H. rewrite (get_countBy _ _ _ H).
  now destruct (occurrences getter data k).
Qed.

Lemma plainKeys_in (getter : IssueRow -> string) (data : list IssueRow) (v : string) :
  plainKeys getter data -> In v (map getter data) -> isInherited v = false.
Proof.
  unfold plainKeys. rewrite Forall_forall. intros Hp Hin.
  apply in_map_iff in Hin as (row & <- & Hrow). now apply Hp.
Qed.

(** [Object.entries] lists every own property once. *)

Lemma insertIndexed_perm {V : Type} (e : string * V) (l : list (string * V)) :
  Permutation (insertIndexed e l) (e :: l).
Proof.
  induction l as [|e' l IH]; simpl.
  - apply Permutation_refl.
  - destruct (digitsValue 0 (fst e) <=? digitsValue 0 (fst e')).
    + apply Permutation_refl.
    + eapply perm_trans; [apply perm_skip, IH | apply perm_swap].
Qed.

Lemma sortIndexed_perm {V : Type} (l : list (string * V)) :
  Permutation (fold_right insertIndexed [] l) l.
Proof.
  induction l as [|e l IH]; simpl.
  - apply perm_nil.
  - eapply perm_trans; [apply insertIndexed_perm | apply perm_skip, IH].
Qed.

Lemma filter_split_perm {A : Type} (p : A -> bool) (l : list A) :
  Permutation (filter p l ++ filter (fun x => negb (p x)) l) l.
Proof.
  induction l as [|x l IH]; simpl.
  - apply perm_nil.
  - destruct (p x); simpl.
    + apply perm_skip, IH.
    + apply Permutation_sym, Permutation_cons_app, Permutation_sym, IH.
Qed.

Lemma Object_entries_perm {V : Type} (o : list (string * V)) :
  Permutation (Object_entries o) o.
Proof.
  unfold Object_entries.
  eapply perm_trans; [|apply (filter_split_perm (fun e => isArrayIndex (fst e)))].
  apply Permutation_app_tail, sortIndexed_perm.
Qed.

Lemma toChartData_in (counts : Local.Counts) (b : ChartData) :
  In b (Local.toChartData counts) <-> In (name b, value b) counts.
Proof.
  unfold Local.toChartData. rewrite in_map_iff. split.
  - intros ([k v] & <- & Hin). cbn [name value].
    exact (Permutation_in _ (Object_entries_perm counts) Hin).
  - intros Hin. exists (name b, value b). split; [now destruct b|].
    exact (Permutation_in _ (Permutation_sym (Object_entries_perm counts)) Hin).
Qed.

Lemma toChartData_names (counts : Local.Counts) :
  Permutation (map name (Local.toChartData counts)) (map fst counts).
Proof.
  unfold Local.toChartData. rewrite map_map.
  eapply perm_trans; [|apply Permutation_map, Object_entries_perm].
  erewrite map_ext; [apply Permutation_refl|]. now intros [k v].
Qed.

Lemma toChartData_values (counts : Local.Counts) :
  Permutation (map value (Local.toChartData counts)) (map snd counts).
Proof.
  unfold Local.toChartData. rewrite map_map.
  eapply perm_trans; [|apply Permutation_map, Object_entries_perm].
  erewrite map_ext; [apply Permutation_refl|]. now intros [k v].
Qed.

Lemma toChartData_length (counts : Local.Counts) :
  List.length (Local.toChartData counts) = List.length counts.
Proof.
  unfold Local.toChartData. rewrite length_map.
  apply Permutation_length, Object_entries_perm.
Qed.

(** When no record resolves to an inherited name, the buckets are the full
    set of distinct values, each with the number of its records. *)
Lemma toChartData_full (getter : IssueRow -> string) (data : list IssueRow) :
  plainKeys getter data ->
  fullBuckets getter data (Local.toChartData (Local.countBy getter data)).
Proof.
  intros Hplain.
  destruct (countBy_holds getter data) as [Hnd Hown].
  pose proof (toChartData_names (Local.countBy getter data)) as Hp.
  assert (Hkey : forall v, In v (map fst (Local.countBy getter data))
                           <-> In v (map getter data)).
  { intros v. split.
    - intros Hv. apply (count_occ_In string_dec).
      destruct (Local.own (Local.countBy getter data) v) eqn:E.
      + rewrite Hown in E. unfold counted in E.
        destruct (count_occ string_dec (map getter data) v); [discriminate | lia].
      + now apply own_none in E.
    - intros Hv. pose proof (plainKeys_in _ _ _ Hplain Hv) as Hi.
      apply (count_occ_In string_dec) in Hv.
      destruct (in_dec string_dec v (map fst (Local.countBy getter data)))
        as [Hin|Hnotin]; [exact Hin|].
      apply own_none in Hnotin. rewrite Hown, (counted_plain _ _ Hi) in Hnotin.
      destruct (count_occ string_dec (map getter data) v); [lia | discriminate]. }
  split; [|split].
  - exact (Permutation_NoDup (Permutation_sym Hp) Hnd).
  - intros v. rewrite <- Hkey. split; apply Permutation_in;
      [exact Hp | exact (Permutation_sym Hp)].
  - intros b Hb. apply toChartData_in in Hb.
    assert (Hi : isInherited (name b) = false).
    { apply (plainKeys_in _ _ _ Hplain), Hkey, in_map_iff.
      now exists (name b, value b). }
    apply (own_in _ _ _ Hnd) in Hb.
    rewrite Hown, (counted_plain _ _ Hi) in Hb. unfold occurrences.
    destruct (count_occ string_dec (map getter data) (name b));
      [discriminate | now injection Hb as <-].
Qed.

(** ** Aggregation: the counts add up *)

Lemma sumCells_perm (l l' : list cell) :
  Permutation l l' -> sumCells l = sumCells l'.
Proof.
  induction 1 as [|x l l' _ IH|x y l|l l' l'' _ IH1 _ IH2].
  - reflexivity.
  - cbn [sumCells]. now rewrite IH.
  - cbn [sumCells]. destruct x, y; try reflexivity.
    destruct (sumCells l); [f_equal; lia | reflexivity].
  - now rewrite IH1.
Qed.

Lemma sumCells_put (acc : Local.Counts) (k : string) :
  isInherited k = false ->
  forall s, sumCells (map snd acc) = Some s ->
            sumCells (map snd (Local.put acc k (orZeroPlusOne (Local.get acc k))))
            = Some (s + 1).
Proof.
  intros Hk. induction acc as [|[k' v] acc IH]; intros s Hs.
  - cbn in Hs. injection Hs as <-. rewrite (get_plain _ _ Hk). reflexivity.
  - cbn [map snd sumCells] in Hs. destruct v as [t|n]; [discriminate Hs|].
    destruct (sumCells (map snd acc)) as [s'|] eqn:E; [|discriminate Hs].
    injection Hs as <-.
    rewrite (get_plain _ _ Hk). cbn [Local.put Local.own].
    destruct (k' =? k)%string.
    + cbn [orZeroPlusOne map snd sumCells]. rewrite E. f_equal. lia.
    + cbn [map snd sumCells]. rewrite <- (get_plain _ _ Hk), (IH s' eq_refl).
      f_equal. lia.
Qed.

Lemma sumCells_countBy (getter : IssueRow -> string) (data : list IssueRow) :
  plainKeys getter data ->
  sumCells (map snd (Local.countBy getter data)) = Some (Z.of_nat (List.length data)).
Proof.
  unfold Local.countBy, plainKeys. intros Hplain.
  assert (G : forall acc s,
             sumCells (map snd acc) = Some s ->
             sumCells (map snd (fold_left (fun a row => Local.bump a (getter row))
                                          data acc))
             = Some (s + Z.of_nat (List.length data))).
  { induction Hplain as [|row data Hrow _ IH]; intros acc s Hs.
    - simpl. rewrite Hs. f_equal. lia.
    - cbn [fold_left List.length].
      rewrite (IH (Local.bump acc (getter row)) (s + 1)).
      + f_equal. lia.
      + unfold Local.bump, Local.set. rewrite (proto_inherited _ Hrow).
        exact (sumCells_put acc _ Hrow s Hs). }
  exact (G [] 0 eq_refl).
Qed.

Lemma sumValues_perm (l l' : list ChartData) :
  Permutation l l' -> sumValues l = sumValues l'.
Proof.
  intros H. unfold sumValues. now apply sumCells_perm, Permutation_map.
Qed.

Lemma sumValues_toChartData (counts : Local.Counts) :
  sumValues (Local.toChartData counts) = sumCells (map snd counts).
Proof. apply sumCells_perm, toChartData_values. Qed.

(** The sort permutes, and when every value is a number what it returns is
    in non-increasing order. *)

Lemma insertDesc_perm (a : ChartData) (l : list ChartData) :
  Permutation (Local.insertDesc a l) (a :: l).
Proof.
  induction l as [|b l IH]; cbn [Local.insertDesc].
  - apply Permutation_refl.
  - destruct (Local.minus (value b) (value a)) as [d|]; [|apply Permutation_refl].
    destruct (0 <? d).
    + eapply perm_trans; [apply perm_skip, IH | apply perm_swap].
    + apply Permutation_refl.
Qed.

Lemma sortDesc_perm (l : list ChartData) : Permutation (Local.sortDesc l) l.
Proof.
  induction l as [|a l IH]; simpl.
  - apply perm_nil.
  - eapply perm_trans; [apply insertDesc_perm | apply perm_skip, IH].
Qed.

Lemma insertDesc_sorted (a : ChartData) (l : list ChartData) :
  numeric a -> Forall numeric l ->
  StronglySorted geValue l -> StronglySorted geValue (Local.insertDesc a l).
Proof.
  intros (x & Hx & _). induction l as [|b l IH]; intros Hnum Hs; cbn [Local.insertDesc].
  - constructor; constructor.
  - inversion Hs as [|? ? Hl Hb]; subst.
    inversion Hnum as [|? ? (y & Hy & _) Hnum']; subst.
    rewrite Hx, Hy. cbn [Local.minus].
    destruct (Z.ltb_spec 0 (y - x)) as [Hlt|Hge].
    + constructor; [now apply IH|].
      eapply Permutation_Forall; [apply Permutation_sym, insertDesc_perm|].
      constructor; [|exact Hb].
      exists y, x. repeat split; [exact Hy | exact Hx | lia].
    + constructor; [exact Hs|].
      constructor; [exists x, y; repeat split; [exact Hx | exact Hy | lia]|].
      eapply Forall_impl; [|exact Hb].
      intros c (y' & z & Hy' & Hz & Hle). exists x, z.
      rewrite Hy in Hy'. injection Hy' as <-.
      repeat split; [exact Hx | exact Hz | lia].
Qed.

Lemma sortDesc_sorted (l : list ChartData) :
  Forall numeric l -> StronglySorted geValue (Local.sortDesc l).
Proof.
  induction 1 as [|a l Ha Hl IH]; cbn [Local.sortDesc]; [constructor|].
  apply insertDesc_sorted; [exact Ha | | exact IH].
  eapply Permutation_Forall; [apply Permutation_sym, sortDesc_perm | exact Hl].
Qed.

Lemma firstn_sorted (n : nat) : forall l : list ChartData,
  StronglySorted geValue l -> StronglySorted geValue (firstn n l).
Proof.
  induction n as [|n IH]; intros l Hs; [constructor|].
  destruct l as [|a l]; [constructor|].
  inversion Hs as [|? ? Hl Ha]; subst. cbn [firstn].
  constructor; [now apply IH|].
  apply Forall_forall. intros b Hb.
  rewrite Forall_forall in Ha. apply Ha.
  rewrite <- (firstn_skipn n l). apply in_or_app. now left.
Qed.

Lemma full_numeric (getter : IssueRow -> string) (data : list IssueRow)
    (buckets : list ChartData) :
  fullBuckets getter data buckets -> Forall numeric buckets.
Proof.
  intros (_ & _ & Hv). apply Forall_forall. intros b Hb.
  exists (Z.of_nat (occurrences getter data (name b))).
  split; [now apply Hv | lia].
Qed.

(** Counts are never negative, so a prefix of the buckets sums to no more
    than all of them. *)
Lemma sumValues_firstn (n : nat) : forall (l : list ChartData) (t : Z),
  Forall numeric l -> sumValues l = Some t ->
  exists s : Z, sumValues (firstn n l) = Some s /\ 0 <= s <= t.
Proof.
  unfold sumValues.
  induction n as [|n IH]; intros l t Hl Ht.
  - exists 0. split; [reflexivity|]. split; [lia|].
    revert t Ht. induction Hl as [|b l (x & Hx & Hx0) _ IHl]; intros t Ht.
    + cbn in Ht. injection Ht as <-. lia.
    + cbn [map sumCells] in Ht. rewrite Hx in Ht.
      destruct (sumCells (map value l)) as [s|]; [|discriminate Ht].
      injection Ht as <-. specialize (IHl s eq_refl). lia.
  - destruct l as [|b l].
    + cbn in Ht. injection Ht as <-. exists 0. split; [reflexivity | lia].
    + inversion Hl as [|? ? (x & Hx & Hx0) Hl']; subst.
      cbn [map sumCells] in Ht. rewrite Hx in Ht.
      destruct (sumCells (map value l)) as [s'|] eqn:E; [|discriminate Ht].
      injection Ht as <-.
      destruct (IH l s' Hl' E) as (s & Hs & Hle).
      exists (x + s). cbn [firstn map sumCells]. rewrite Hx, Hs.
      split; [reflexivity | lia].
Qed.

(** C6, as stated, fails for the state dimension as it is rendered: with
    eleven issues in eleven different states the ten buckets kept hold one
    issue each. *)
Lemma C6_truncation_drops_records :
  sumValues (Local.stateData elevenStates) = Some 10
  /\ Local.totalIssues elevenStates = 11.
Proof. split; vm_compute; reflexivity. Qed.

(** C6 (amended): take a dimension in which no record resolves to a name
    that object literals inherit.  For status, priority and type, and for
    state before it is cut to ten buckets, the counts of the buckets add up
    to the number of records.  The ten state buckets that are rendered add
    up to at most that number, and to exactly that number when there are no
    more than ten different states. *)
Theorem C6_bucket_sums (data : list IssueRow) :
  (plainKeys Local.getStatus data ->
   sumValues (Local.statusData data) = Some (Local.totalIssues data))
  /\ (plainKeys Local.getPriority data ->
      sumValues (Local.priorityData data) = Some (Local.totalIssues data))
  /\ (plainKeys Local.getType data ->
      sumValues (Local.typeData data) = Some (Local.totalIssues data))
  /\ (plainKeys Local.getState data ->
      sumValues (Local.toChartData (Local.stateCounts data))
      = Some (Local.totalIssues data)
      /\ (exists s : Z,
             sumValues (Local.stateData data) = Some s
             /\ s <= Local.totalIssues data)
      /\ ((List.length (Local.stateCounts data) <= 10)%nat ->
          sumValues (Local.stateData data) = Some (Local.totalIssues data))).
Proof.
  assert (G : forall getter, plainKeys getter data ->
             sumValues (Local.toChartData (Local.countBy getter data))
             = Some (Local.totalIssues data)).
  { intros getter Hp. now rewrite sumValues_toChartData, sumCells_countBy. }
  split; [apply G|]. split; [apply G|]. split; [apply G|].
  intros Hp.
  assert (S : sumValues (Local.sortDesc (Local.toChartData (Local.stateCounts data)))
              = Some (Local.totalIssues data)).
  { rewrite (sumValues_perm _ _ (sortDesc_perm _)). now apply G. }
  split; [now apply G|]. split.
  - unfold Local.stateData.
    destruct (sumValues_firstn 10 _ _
                (Permutation_Forall (Permutation_sym (sortDesc_perm _))
                   (full_numeric _ _ _ (toChartData_full Local.getState data Hp)))
                S) as (s & Hs & Hle).
    exists s. split; [exact Hs | lia].
  - intros Hl. unfold Local.stateData. rewrite firstn_all2; [exact S|].
    rewrite (Permutation_length (sortDesc_perm _)), toChartData_length. exact Hl.
Qed.

(** C6 on three issues without a state column: one bucket holds all three. *)
Lemma C6_bucket_sums_witness :
  sumValues (Local.stateData [rowOpen; rowTwoDays; rowBlankStatus]) = Some 3.
Proof.
  apply (proj2 (proj2 (proj2
           (C6_bucket_sums [rowOpen; rowTwoDays; rowBlankStatus])))).
  - repeat constructor.
  - vm_compute. lia.
Defined.

(** ** Aggregation: names that object literals inherit *)

(** C7, as stated, fails on a status that reads [__proto__]: the assignment
    to the accumulator is discarded, so the issue has no bucket and the
    status buckets are not the full set of resolved values.  On a status
    that reads [constructor] the bucket holds a text, the source of the
    inherited function followed by one digit 1 for each issue, so its count
    cannot be ordered against the others. *)
Theorem C7_inherited_names :
  map Local.getStatus protoThenOpen = ["__proto__"; "Open"]
  /\ Local.statusData protoThenOpen = [mkChartData "Open" (Num 1)]
  /\ Local.statusData constructorTwiceThenOpen
     = [mkChartData "constructor" (Str "function Object() { [native code] }11");
        mkChartData "Open" (Num 1)]
  /\ Local.minus (Num 1) (Str "function Object() { [native code] }11") = NaN.
Proof. repeat split; vm_compute; reflexivity. Qed.

(** ** Aggregation: the ten largest states *)

Lemma StronglySorted_app_inv (l1 l2 : list ChartData) :
  StronglySorted geValue (l1 ++ l2) ->
  forall a b, In a l1 -> In b l2 -> geValue a b.
Proof.
  induction l1 as [|x l1 IH]; intros Hs a b Ha Hb; [destruct Ha|].
  cbn [app] in Hs. inversion Hs as [|? ? Hs' Hx]; subst.
  destruct Ha as [<-|Ha].
  - rewrite Forall_forall in Hx. apply Hx, in_or_app. now right.
  - now apply IH.
Qed.

Lemma stateData_incl (data : list IssueRow) (b : ChartData) :
  In b (Local.stateData data) ->
  In b (Local.toChartData (Local.countBy Local.getState data)).
Proof.
  unfold Local.stateData, Local.stateCounts. intros Hb.
  apply (Permutation_in _ (sortDesc_perm _)).
  rewrite <- (firstn_skipn 10 (Local.sortDesc _)). apply in_or_app. now left.
Qed.

(** X17: the state buckets that are rendered are the first ten of the
    sorted buckets, or all of them when there are fewer, whatever the
    dataset.  When no state reads as a name that object literals inherit,
    they are in non-increasing order of count, each counts the records of
    its state, and none of the buckets left out has a higher count than one
    that was kept.  The status, priority and type buckets of a dimension
    without such names are the full set of distinct resolved values, each
    with the number of records resolving to it. *)
Theorem X17_state_top_ten (data : list IssueRow) :
  (List.length (Local.stateData data) <= 10)%nat
  /\ List.length (Local.stateData data)
     = Nat.min 10 (List.length (Local.stateCounts data))
  /\ (plainKeys Local.getState data ->
      StronglySorted geValue (Local.stateData data)
      /\ (forall b, In b (Local.stateData data) ->
            value b = Num (Z.of_nat (occurrences Local.getState data (name b))))
      /\ (forall b b',
            In b (Local.stateData data) ->
            In b' (skipn 10 (Local.sortDesc
                               (Local.toChartData (Local.stateCounts data)))) ->
            geValue b b'))
  /\ (plainKeys Local.getStatus data ->
      fullBuckets Local.getStatus data (Local.statusData data))
  /\ (plainKeys Local.getPriority data ->
      fullBuckets Local.getPriority data (Local.priorityData data))
  /\ (plainKeys Local.getType data ->
      fullBuckets Local.getType data (Local.typeData data)).
Proof.
  split; [apply firstn_le_length|].
  split.
  { unfold Local.stateData.
    now rewrite length_firstn, (Permutation_length (sortDesc_perm _)),
      toChartData_length. }
  split; [|split; [|split]; intros Hp; apply (toChartData_full _ _ Hp)].
  intros Hp. pose proof (toChartData_full Local.getState data Hp) as Hfull.
  assert (Hsorted : StronglySorted geValue
                      (Local.sortDesc (Local.toChartData (Local.stateCounts data)))).
  { apply sortDesc_sorted. exact (full_numeric _ _ _ Hfull). }
  split; [apply firstn_sorted, Hsorted|].
  split.
  - intros b Hb. apply stateData_incl in Hb. now apply Hfull.
  - intros b b' Hb Hb'.
    apply (StronglySorted_app_inv
             (firstn 10 (Local.sortDesc (Local.toChartData (Local.stateCounts data))))
             (skipn 10 (Local.sortDesc (Local.toChartData (Local.stateCounts data)))));
      [|exact Hb | exact Hb'].
    rewrite firstn_skipn. exact Hsorted.
Qed.

(** X17 on the eleven states: the bucket of state [a] counts one issue. *)
Lemma X17_state_top_ten_witness :
  value (mkChartData "a" (Num 1))
  = Num (Z.of_nat (occurrences Local.getState elevenStates "a")).
Proof.
  apply (proj1 (proj2 (proj1 (proj2 (proj2 (X17_state_top_ten elevenStates)))
                         ltac:(repeat constructor)))
           (mkChartData "a" (Num 1))).
  left. reflexivity.
Defined.

(** ** Filter *)

Lemma filter_by_value_length (getter : IssueRow -> string) (v : string)
    (data : list IssueRow) :
  List.length (filter (fun row => (getter row =? v)%string) data)
  = occurrences getter data v.
Proof.
  unfold occurrences. induction data as [|row data IH]; [reflexivity|].
  cbn [filter map count_occ].
  destruct (String.eqb_spec (getter row) v) as [E|N];
    destruct (string_dec (getter row) v) as [E'|N']; try contradiction;
    cbn [List.length]; now rewrite IH.
Qed.

Lemma filteredData_dimension (kind : string) (getter : IssueRow -> string)
    (v : string) (data : list IssueRow) :
  In (kind, getter) dimensions ->
  Local.filteredData (Some (kind, v)) data
  = filter (fun row => (getter row =? v)%string) data.
Proof.
  unfold dimensions. intros H.
  repeat (destruct H as [[= <- <-]|H]; [reflexivity|]). destruct H.
Qed.

(** C9: for a selector whose kind is one of the four dimensions, the filter
    keeps exactly the records whose resolved value equals the selected one, in
    their order; it returns as many records as resolve to that value, and none
    when no record does. *)
Theorem C9_filter_membership (data : list IssueRow) (kind v : string)
    (getter : IssueRow -> string) :
  In (kind, getter) dimensions ->
  Local.filteredData (Some (kind, v)) data
  = filter (fun row => (getter row =? v)%string) data
  /\ (forall row, In row (Local.filteredData (Some (kind, v)) data)
                  <-> In row data /\ getter row = v)
  /\ List.length (Local.filteredData (Some (kind, v)) data)
     = occurrences getter data v
  /\ (occurrences getter data v = 0%nat ->
      Local.filteredData (Some (kind, v)) data = []).
Proof.
  intros Hk. rewrite (filteredData_dimension kind getter v data Hk).
  split; [reflexivity|]. split; [|split].
  - intros row. rewrite filter_In. now rewrite String.eqb_eq.
  - apply filter_by_value_length.
  - intros H0. apply length_zero_iff_nil. now rewrite filter_by_value_length.
Qed.

(** C9 on one open and two closed issues: the closed ones are selected, and
    no issue has priority [High]. *)
Lemma C9_filter_membership_witness :
  Local.filteredData (Some ("status", "Closed")) openThenClosed
  = [[("Status", Str "Closed")]; [("Status", Str "Closed")]]
  /\ List.length (Local.filteredData (Some ("priority", "High")) openThenClosed) = 0%nat.
Proof.
  split.
  - rewrite (proj1 (C9_filter_membership openThenClosed "status" "Closed"
                      Local.getStatus (or_introl eq_refl))).
    reflexivity.
  - rewrite (proj1 (proj2 (proj2 (C9_filter_membership openThenClosed "priority" "High"
                      Local.getPriority (or_intror (or_introl eq_refl)))))).
    reflexivity.
Defined.

Lemma filter_all {A : Type} (l : list A) : filter (fun _ => true) l = l.
Proof. induction l as [|x l IH]; simpl; [reflexivity | now rewrite IH]. Qed.

(** C10: a selector whose kind is none of the four dimensions selects every
    record, and no selector selects none. *)
Theorem C10_filter_fallback (data : list IssueRow) (kind v : string) :
  kind <> "status" -> kind <> "priority" -> kind <> "type" -> kind <> "state" ->
  Local.filteredData (Some (kind, v)) data = data
  /\ Local.filteredData None data = [].
Proof.
  intros H1 H2 H3 H4. split; [|reflexivity].
  unfold Local.filteredData.
  destruct (String.eqb_spec kind "status"); [contradiction|].
  destruct (String.eqb_spec kind "priority"); [contradiction|].
  destruct (String.eqb_spec kind "type"); [contradiction|].
  destruct (String.eqb_spec kind "state"); [contradiction|].
  apply filter_all.
Qed.

(** C10 with the kind [assignee], which is no dimension. *)
Lemma C10_filter_fallback_witness :
  Local.filteredData (Some ("assignee", "7")) openThenClosed = openThenClosed
  /\ Local.filteredData None openThenClosed = [].
Proof.
  apply (C10_filter_fallback openThenClosed "assignee" "7"); discriminate.
Defined.

(** ** Printing a count and reading it back *)

Lemma digitsValue_of_uint_acc (d : Decimal.uint) : forall acc : positive,
  digitsValue (Z.pos acc) (NilEmpty.string_of_uint d)
  = Z.pos (Pos.of_uint_acc d acc).
Proof.
  induction d as [|d IH|d IH|d IH|d IH|d IH|d IH|d IH|d IH|d IH|d IH];
    intros acc; [reflexivity|..];
    cbn [NilEmpty.string_of_uint Pos.of_uint_acc];
    cbn [digitsValue]; change (isDigit _) with true; cbv iota;
    rewrite <- IH; f_equal;
    match goal with
    | |- context [digitValue ?c] =>
        let v := eval vm_compute in (digitValue c) in change (digitValue c) with v
    end; lia.
Qed.

Lemma digitsValue_of_uint (d : Decimal.uint) :
  digitsValue 0 (NilEmpty.string_of_uint d) = Z.of_N (Pos.of_uint d).
Proof.
  induction d as [|d IH|d IH|d IH|d IH|d IH|d IH|d IH|d IH|d IH|d IH];
    [reflexivity | exact IH |..];
    cbn [NilEmpty.string_of_uint Pos.of_uint digitsValue];
    change (isDigit _) with true; cbv iota;
    cbn [Z.of_N]; rewrite <- digitsValue_of_uint_acc; reflexivity.
Qed.

Lemma parseInt_toString (n : Z) :
  0 <= n -> parseInt (Number_toString (Some n)) = Some n.
Proof.
  intros Hn. destruct n as [|p|p]; [reflexivity | | lia].
  unfold Number_toString. cbn [Z.to_int NilEmpty.string_of_int].
  pose proof (digitsValue_of_uint (Pos.to_uint p)) as Hv.
  rewrite DecimalPos.Unsigned.of_to in Hv. cbn [Z.of_N] in Hv.
  pose proof (DecimalPos.Unsigned.to_uint_nonnil p) as Hnil.
  destruct (Pos.to_uint p) as [|d|d|d|d|d|d|d|d|d|d]; [congruence|..];
    cbn [NilEmpty.string_of_uint] in *; unfold parseInt; cbn [trimStart];
    change (isWhiteSpace _) with false; cbv iota; cbn [startsWithDigit];
    change (isDigit _) with true; cbv iota; now rewrite Hv.
Qed.

(** ** Average resolution time *)

Lemma fixed1_nearest (x : Q) :
  (0 <= x)%Q ->
  exists n : Z,
    0 <= n
    /\ (Qabs (inject_Z n * (1 # 10) - x) <= 1 # 20)%Q
    /\ fixed1 x
       = Number_toString (Some (n / 10)) ++ "." ++ Number_toString (Some (n mod 10)).
Proof.
  intros Hx. exists (Qfloor (10 * x + (1 # 2))).
  pose proof (Qfloor_le (10 * x + (1 # 2))) as Hlo.
  pose proof (Qlt_floor (10 * x + (1 # 2))) as Hhi.
  rewrite inject_Z_plus in Hhi. change (inject_Z 1) with 1%Q in Hhi.
  split; [|split; [|reflexivity]].
  - change 0 with (Qfloor 0). apply Qfloor_resp_le. lra.
  - apply Qabs_Qle_condition. split; lra.
Qed.

Lemma fold_add_some (ds : list Z) : forall a : Z,
  fold_left add (map Some ds) (Some a) = Some (a + sumZ ds).
Proof.
  induction ds as [|d ds IH]; intros a; simpl.
  - f_equal. lia.
  - rewrite IH. f_equal. lia.
Qed.

Lemma sumZ_nonneg (ds : list Z) : Forall (fun d => 0 <= d) ds -> 0 <= sumZ ds.
Proof. induction 1; simpl; lia. Qed.

Section Average.

Context {rt : Runtime}.

Lemma resolutionTimes_days (data : list IssueRow) :
  exists ds : list Z,
    Forall2 (fun row d => 0 <= d
                          /\ Local.getResolutionDays row = Number_toString (Some d))
            (resolved data) ds
    /\ Local.resolutionTimes data = map Some ds.
Proof.
  unfold Local.resolutionTimes, resolved.
  induction data as [|row data (ds & HF & Hr)].
  - exists []. split; [constructor | reflexivity].
  - cbn [map flat_map filter].
    destruct (getResolutionDays_cases row) as [E|(n & Hn & E)].
    + rewrite E. cbn. exists ds. split; assumption.
    + pose proof (Number_toString_not_dash n Hn) as Hne.
      rewrite <- E in Hne.
      destruct (String.eqb_spec (Local.getResolutionDays row) "-") as [|_];
        [contradiction|].
      cbn [negb app]. exists (n :: ds). split.
      * constructor; [split; assumption | exact HF].
      * cbn [map]. rewrite Hr, E, (parseInt_toString n Hn). reflexivity.
Qed.

Lemma resolved_none (data : list IssueRow) :
  Forall (fun row => Local.getClosedOn row = "-") data -> resolved data = [].
Proof.
  unfold resolved. induction 1 as [|row data Hrow _ IH]; [reflexivity|].
  cbn [filter]. unfold Local.getResolutionDays at 1. rewrite Hrow. cbn.
  exact IH.
Qed.

Lemma fdiv_nonneg (a b : Z) : 0 <= a -> 0 < b -> (0 <= fdiv a b)%Q.
Proof.
  intros Ha Hb. pose proof (fdiv_accurate a b Ha Hb) as Hacc.
  assert (Hq : (0 <= inject_Z a / inject_Z b)%Q).
  { apply Qle_shift_div_l.
    - change 0%Q with (inject_Z 0). rewrite <- Zlt_Qlt. exact Hb.
    - rewrite Qmult_0_l. change 0%Q with (inject_Z 0). rewrite <- Zle_Qle. exact Ha. }
  apply Qabs_Qle_condition in Hacc as [Hlo _].
  revert Hlo Hq. generalize (inject_Z a / inject_Z b)%Q (fdiv a b). intros q x Hlo Hq.
  assert ((1 # 9007199254740992) <= 1)%Q by (unfold Qle; simpl; lia).
  nra.
Qed.

(** C8: let [ds] be the day counts of the records whose resolution time is
    not ["-"].  If there is none, in particular if no record has a closing
    date, the average is ["0"].  Otherwise the average is printed as a
    non-negative number of tenths with one digit after the point, and that
    number is the mean of [ds] rounded to the nearest tenth: it differs from
    the mean by at most a twentieth, up to the rounding of the division
    [sum / count] itself. *)
Theorem C8_average_resolution (data : list IssueRow) :
  (Forall (fun row => Local.getClosedOn row = "-") data ->
   Local.avgResolutionTime data = "0")
  /\ (resolved data = [] -> Local.avgResolutionTime data = "0")
  /\ exists ds : list Z,
      Forall2 (fun row d => 0 <= d
                            /\ Local.getResolutionDays row = Number_toString (Some d))
              (resolved data) ds
      /\ (ds <> [] ->
          exists tenths : Z,
            0 <= tenths
            /\ (Qabs (inject_Z tenths * (1 # 10) - mean ds)
                <= (1 # 20) + mean ds * (1 # 9007199254740992))%Q
            /\ Local.avgResolutionTime data
               = Number_toString (Some (tenths / 10)) ++ "."
                 ++ Number_toString (Some (tenths mod 10))).
Proof.
  destruct (resolutionTimes_days data) as (ds & HF & Hr).
  assert (Hempty : resolved data = [] -> Local.avgResolutionTime data = "0").
  { intros He. rewrite He in HF. inversion HF; subst.
    unfold Local.avgResolutionTime. now rewrite Hr. }
  split; [|split; [exact Hempty|]].
  - intros Hall. apply Hempty, resolved_none, Hall.
  - exists ds. split; [exact HF|]. intros Hne.
    assert (Hpos : Forall (fun d => 0 <= d) ds).
    { clear -HF. induction HF as [|row d rows ds [Hd _] _ IH]; constructor; assumption. }
    assert (Hlen : 0 < Z.of_nat (List.length ds)).
    { destruct ds; [congruence | simpl; lia]. }
    pose proof (sumZ_nonneg ds Hpos) as Hsum.
    pose proof (fdiv_accurate (sumZ ds) (Z.of_nat (List.length ds)) Hsum Hlen) as Hacc.
    pose proof (fdiv_nonneg (sumZ ds) (Z.of_nat (List.length ds)) Hsum Hlen) as Hx.
    destruct (fixed1_nearest _ Hx) as (n & Hn & Hnear & Hfix).
    exists n. split; [exact Hn|]. split.
    + unfold mean.
      apply Qabs_Qle_condition in Hnear as [Hn1 Hn2].
      apply Qabs_Qle_condition in Hacc as [Ha1 Ha2].
      apply Qabs_Qle_condition. split; lra.
    + unfold Local.avgResolutionTime. rewrite Hr, length_map.
      apply Z.ltb_lt in Hlen. rewrite Hlen.
      rewrite fold_add_some. cbn [Local.divide Z.add toFixed1].
      apply Qle_bool_iff in Hx. rewrite Hx. exact Hfix.
Qed.

End Average.

(** On the reference host: two and zero days average to one. *)
Example average_of_two :
  @Local.avgResolutionTime hostRuntime [rowTwoDays; rowSameDay; rowOpen] = "1.0"
  /\ @Local.avgResolutionTime hostRuntime [rowOpen] = "0".
Proof. split; vm_compute; reflexivity. Qed.

(** C8 on the reference host: two issues that are not closed average to
    ["0"]. *)
Lemma C8_average_resolution_witness :
  @Local.avgResolutionTime hostRuntime [rowOpen; rowBlankStatus] = "0".
Proof.
  apply (proj1 (@C8_average_resolution hostRuntime [rowOpen; rowBlankStatus])).
  repeat constructor.
Defined.

(* ================================================================== *)
(** * Further properties of the code *)
(* ================================================================== *)

(** ** Resolved values carry no surrounding whitespace *)

Lemma trimStart_head (s : string) : startsWithSpace (trimStart s) = false.
Proof.
  induction s as [|c s IH]; [reflexivity|].
  simpl. destruct (isWhiteSpace c) eqn:Hc; [exact IH | simpl; exact Hc].
Qed.

Lemma trimStart_noop (s : string) : startsWithSpace s = false -> trimStart s = s.
Proof.
  destruct s as [|c s]; [reflexivity|]. simpl. now intros ->.
Qed.

Lemma trimEnd_head (s : string) :
  startsWithSpace s = false -> startsWithSpace (trimEnd s) = false.
Proof.
  destruct s as [|c s]; [reflexivity|]. simpl. intros Hc. now rewrite Hc.
Qed.

Lemma trimEnd_idempotent (s : string) : trimEnd (trimEnd s) = trimEnd s.
Proof.
  induction s as [|c s IH]; [reflexivity|].
  cbn [trimEnd].
  destruct (isWhiteSpace c && (trimEnd s =? "")%string) eqn:E; [reflexivity|].
  cbn [trimEnd]. rewrite IH, E. reflexivity.
Qed.

Lemma trim_idempotent (s : string) : trim (trim s) = trim s.
Proof.
  unfold trim.
  rewrite (trimStart_noop (trimEnd (trimStart s)))
    by apply trimEnd_head, trimStart_head.
  apply trimEnd_idempotent.
Qed.

Lemma trim_head (s : string) : startsWithSpace (trim s) = false.
Proof. unfold trim. apply trimEnd_head, trimStart_head. Qed.

Lemma exactPass_trimmed (row : IssueRow) (names : list string) (v : string) :
  Local.exactPass row names = Some v -> exists x, v = trim x.
Proof.
  induction names as [|a names IH]; simpl; [discriminate|].
  destruct (present (prop row a)); [|exact IH].
  intros [= <-]. eauto.
Qed.

Lemma fallbackPass_trimmed (row : IssueRow) (ks names : list string) (v : string) :
  Local.fallbackPass row ks names = Some v -> exists x, v = trim x.
Proof.
  induction ks as [|k ks IH]; simpl; [discriminate|].
  destruct (Local.aliasMatches (toLowerCase (trim k)) names); [|exact IH].
  intros [= <-]. eauto.
Qed.

Lemma getColumnValue_trimmed (row : IssueRow) (names : list string) :
  exists x, Local.getColumnValue row names = trim x.
Proof.
  unfold Local.getColumnValue.
  destruct (Local.exactPass row names) as [v|] eqn:E;
    [exact (exactPass_trimmed _ _ _ E)|].
  destruct (Local.fallbackPass row (keys row) names) as [v|] eqn:F;
    [exact (fallbackPass_trimmed _ _ _ _ F)|].
  now exists "Unknown".
Qed.

(** X1: whatever the record and the aliases, the value the column resolver
    returns is in trimmed form: trimming it again changes nothing, and it
    does not begin with a whitespace character.  So no bucket name and no
    displayed field carries surrounding whitespace. *)
Theorem X1_resolved_values_are_trimmed (row : IssueRow) (names : list string) :
  trim (Local.getColumnValue row names) = Local.getColumnValue row names
  /\ startsWithSpace (Local.getColumnValue row names) = false.
Proof.
  destruct (getColumnValue_trimmed row names) as [x ->].
  split; [apply trim_idempotent | apply trim_head].
Qed.

(** ** Key figures *)

Lemma count_occ_two (l : list string) (a b : string) :
  a <> b ->
  (count_occ string_dec l a + count_occ string_dec l b <= List.length l)%nat.
Proof.
  intros Hab. induction l as [|x l IH]; [simpl; lia|].
  cbn [count_occ List.length].
  destruct (string_dec x a) as [Ea|Na]; destruct (string_dec x b) as [Eb|Nb];
    try congruence; lia.
Qed.

Lemma never_resolves_to_untrimmed (getter_names : list string) (data : list IssueRow)
    (v : string) :
  trim v <> v ->
  count_occ string_dec
    (map (fun row => Local.getColumnValue row getter_names) data) v = 0%nat.
Proof.
  intros Hv. apply count_occ_not_In. intros Hin.
  apply in_map_iff in Hin as (row & Hrow & _).
  apply Hv. rewrite <- Hrow.
  destruct (getColumnValue_trimmed row getter_names) as [x ->].
  apply trim_idempotent.
Qed.

Lemma untrimmed_get (names : list string) (data : list IssueRow) (v : string) :
  trim v <> v -> isInherited v = false ->
  Local.get (Local.countBy (fun row => Local.getColumnValue row names) data) v
  = Undefined.
Proof.
  intros Hv Hi. rewrite (get_countBy _ _ _ Hi). unfold occurrences.
  now rewrite (never_resolves_to_untrimmed names data v Hv).
Qed.

Lemma urgentCount_occurrences (data : list IssueRow) :
  Local.urgentCount data
  = Prim (Num (Z.of_nat (occurrences Local.getPriority data "Urgent"))).
Proof.
  unfold Local.urgentCount, Local.priorityCounts.
  change Local.getPriority
    with (fun row => Local.getColumnValue row Local.priorityNames) at 2.
  rewrite (untrimmed_get Local.priorityNames data "Urgent ")
    by (discriminate || reflexivity).
  rewrite (get_countBy Local.getPriority data "Urgent" eq_refl).
  now destruct (occurrences Local.getPriority data "Urgent").
Qed.

(** X2: the open and closed figures are the numbers of records whose status
    resolves to [Open] and to [Closed], so together they never exceed the
    total.  The urgent figure is the number of records whose priority
    resolves to [Urgent]: its second lookup, under [Urgent] followed by a
    space, never finds a bucket, because resolved values are trimmed.  All
    this holds whatever the other records resolve to. *)
Theorem X2_key_figures (data : list IssueRow) :
  Local.openCount data
  = Prim (Num (Z.of_nat (occurrences Local.getStatus data "Open")))
  /\ Local.closedCount data
     = Prim (Num (Z.of_nat (occurrences Local.getStatus data "Closed")))
  /\ Local.urgentCount data
     = Prim (Num (Z.of_nat (occurrences Local.getPriority data "Urgent")))
  /\ Local.get (Local.priorityCounts data) "Urgent " = Undefined
  /\ Z.of_nat (occurrences Local.getStatus data "Open")
     + Z.of_nat (occurrences Local.getStatus data "Closed")
     <= Local.totalIssues data.
Proof.
  split; [exact (orZero_get_countBy Local.getStatus data "Open" eq_refl)|].
  split; [exact (orZero_get_countBy Local.getStatus data "Closed" eq_refl)|].
  split; [exact (urgentCount_occurrences data)|].
  split.
  - apply (untrimmed_get Local.priorityNames); [discriminate | reflexivity].
  - pose proof (count_occ_two (map Local.getStatus data) "Open" "Closed"
                  ltac:(discriminate)) as H.
    rewrite length_map in H. unfold Local.totalIssues, occurrences. lia.
Qed.

(** ** A click on a chart shows what the chart counted *)

Lemma bucket_filter_length (kind : string) (getter : IssueRow -> string)
    (data : list IssueRow) (b : ChartData) :
  In (kind, getter) dimensions ->
  plainKeys getter data ->
  In b (Local.toChartData (Local.countBy getter data)) ->
  value b
  = Num (Z.of_nat (List.length (Local.filteredData (Some (kind, name b)) data)))
  /\ 1 <= Z.of_nat (List.length (Local.filteredData (Some (kind, name b)) data)).
Proof.
  intros Hk Hp Hb.
  destruct (toChartData_full getter data Hp) as (_ & Hnames & Hvalue).
  rewrite (filteredData_dimension kind getter (name b) data Hk),
    filter_by_value_length, (Hvalue b Hb).
  split; [reflexivity|].
  assert (Hin : In (name b) (map getter data)) by (apply Hnames; now apply in_map).
  apply (count_occ_In string_dec) in Hin. unfold occurrences. lia.
Qed.

(** X3: in a chart none of whose records resolves to a name that object
    literals inherit, a click on any bucket that is drawn opens the detail
    view with exactly as many records as the bucket counts, and that is at
    least one; this holds for the ten state buckets that are drawn too. *)
Theorem X3_click_shows_bucket (st : Local.State) (kind : string)
    (getter : IssueRow -> string) (buckets : list ChartData) (b : ChartData) :
  In (kind, getter, buckets) (charts (Local.data st)) ->
  plainKeys getter (Local.data st) ->
  In b buckets ->
  Local.showModal (Local.handleChartClick kind (name b) st) = true
  /\ value b
     = Num (Z.of_nat
              (List.length
                 (Local.filteredData
                    (Local.selectedFilter (Local.handleChartClick kind (name b) st))
                    (Local.data (Local.handleChartClick kind (name b) st)))))
  /\ 1 <= Z.of_nat
            (List.length
               (Local.filteredData
                  (Local.selectedFilter (Local.handleChartClick kind (name b) st))
                  (Local.data (Local.handleChartClick kind (name b) st)))).
Proof.
  intros Hc Hp Hb. split; [reflexivity|].
  cbn [Local.handleChartClick Local.selectedFilter Local.data].
  unfold charts in Hc.
  destruct Hc as [[= <- <- <-]|[[= <- <- <-]|[[= <- <- <-]|[[= <- <- <-]|[]]]]].
  - apply (bucket_filter_length "status" Local.getStatus);
      [now left | exact Hp | exact Hb].
  - apply (bucket_filter_length "priority" Local.getPriority);
      [now right; left | exact Hp | exact Hb].
  - apply (bucket_filter_length "type" Local.getType);
      [now right; right; left | exact Hp | exact Hb].
  - apply (bucket_filter_length "state" Local.getState);
      [now right; right; right; left | exact Hp |].
    now apply stateData_incl.
Qed.

(** X3 on one open and two closed issues: the [Closed] bucket counts two and
    a click on it lists two. *)
Lemma X3_click_shows_bucket_witness :
  Num 2
  = Num (Z.of_nat
           (List.length
              (Local.filteredData (Some ("status", "Closed")) openThenClosed))).
Proof.
  apply (X3_click_shows_bucket
           (Local.mkState openThenClosed false "" None false "" None false)
           "status" Local.getStatus (Local.statusData openThenClosed)
           (mkChartData "Closed" (Num 2))).
  - left. reflexivity.
  - repeat constructor.
  - right. left. reflexivity.
Defined.

(** ** Buckets come in the order in which their values first appear *)

Lemma fold_bump_map (getter : IssueRow -> string) (data : list IssueRow) :
  forall acc,
    fold_left (fun a row => Local.bump a (getter row)) data acc
    = fold_left Local.bump (map getter data) acc.
Proof.
  induction data as [|row data IH]; intros acc; [reflexivity|].
  cbn [fold_left map]. apply IH.
Qed.

Lemma unseen_own (acc : Local.Counts) (k : string) :
  unseen (map fst acc) k = match Local.own acc k with Some _ => false | None => true end.
Proof.
  unfold unseen. induction acc as [|[k' n] acc IH]; [reflexivity|].
  cbn [map fst existsb Local.own].
  destruct (k' =? k)%string; [reflexivity | exact IH].
Qed.

Lemma filter_filter {A : Type} (p q : A -> bool) (l : list A) :
  filter p (filter q l) = filter (fun x => q x && p x) l.
Proof.
  induction l as [|x l IH]; [reflexivity|].
  cbn [filter]. destruct (q x); cbn [filter andb]; [destruct (p x)|]; now rewrite IH.
Qed.

Lemma keys_fold_bump (l : list string) :
  Forall (fun x => (x =? "__proto__")%string = false) l ->
  forall acc : Local.Counts,
    map fst (fold_left Local.bump l acc)
    = (map fst acc ++ filter (unseen (map fst acc)) (firstSeen l))%list.
Proof.
  induction 1 as [|x l Hx _ IH]; intros acc.
  - simpl. now rewrite app_nil_r.
  - cbn [fold_left firstSeen filter]. rewrite IH. unfold Local.bump at 1 2.
    unfold Local.set. rewrite Hx, keys_put, unseen_own.
    destruct (Local.own acc x) eqn:E.
    + f_equal. rewrite filter_filter. apply filter_ext_in. intros y _.
      destruct (String.eqb_spec y x) as [->|]; [|reflexivity].
      now rewrite unseen_own, E.
    + rewrite <- app_assoc. cbn [app]. do 2 f_equal.
      rewrite filter_filter. apply filter_ext. intros y.
      unfold unseen. rewrite existsb_app. cbn [existsb].
      rewrite orb_false_r, negb_orb, (String.eqb_sym x y). apply andb_comm.
Qed.

Lemma firstSeen_incl (l : list string) (x : string) : In x (firstSeen l) -> In x l.
Proof.
  induction l as [|y l IH]; [intros []|].
  cbn [firstSeen]. intros [->|Hin]; [now left|].
  right. apply IH. now apply filter_In in Hin as [Hin _].
Qed.

Lemma Object_entries_plain {V : Type} (o : list (string * V)) :
  Forall (fun e => isArrayIndex (fst e) = false) o -> Object_entries o = o.
Proof.
  intros Ho. unfold Object_entries.
  assert (H1 : filter (fun e => isArrayIndex (fst e)) o = []).
  { induction Ho as [|e o He _ IH]; [reflexivity|].
    cbn beta in He. cbn [filter]. rewrite He. exact IH. }
  assert (H2 : filter (fun e => negb (isArrayIndex (fst e))) o = o).
  { clear H1. induction Ho as [|e o He _ IH]; [reflexivity|].
    cbn beta in He. cbn [filter]. rewrite He. cbn [negb]. now rewrite IH. }
  now rewrite H1, H2.
Qed.

(** X4: when no resolved value is the decimal form of an array index, which
    an object enumerates first, or reads [__proto__], under which it stores
    nothing, the buckets of a dimension come in the order in which their
    values first appear in the dataset. *)
Theorem X4_buckets_in_order_of_first_appearance (getter : IssueRow -> string)
    (data : list IssueRow) :
  Forall (fun row => isArrayIndex (getter row) = false) data ->
  Forall (fun row => (getter row =? "__proto__")%string = false) data ->
  map name (Local.toChartData (Local.countBy getter data))
  = firstSeen (map getter data).
Proof.
  intros Hplain Hproto.
  assert (Hkeys : map fst (Local.countBy getter data) = firstSeen (map getter data)).
  { unfold Local.countBy. rewrite fold_bump_map, keys_fold_bump.
    - cbn [map app]. apply forallb_filter_id. apply forallb_forall. reflexivity.
    - clear -Hproto. induction Hproto; constructor; assumption. }
  unfold Local.toChartData. rewrite Object_entries_plain.
  - rewrite map_map, <- Hkeys. apply map_ext. now intros [k n].
  - apply Forall_forall. intros [k n] Hin. cbn [fst].
    assert (Hk : In k (map getter data)).
    { apply firstSeen_incl. rewrite <- Hkeys. apply in_map_iff. now exists (k, n). }
    apply in_map_iff in Hk as (row & <- & Hrow).
    rewrite Forall_forall in Hplain. now apply Hplain.
Qed.

(** X4 on one open and two closed issues: [Open] before [Closed]. *)
Lemma X4_buckets_in_order_witness :
  map name (Local.statusData openThenClosed) = ["Open"; "Closed"].
Proof.
  apply (X4_buckets_in_order_of_first_appearance Local.getStatus openThenClosed);
    repeat constructor.
Defined.

(** ** The date parser checks no ranges *)

Section NoRangeCheck.

Context {rt : Runtime}.

Lemma parseDate_matched_valid (s : string) (d : Date) :
  Local.parseDate s = Some d -> exists t, d = mkDate (Some t).
Proof.
  intros H. destruct (parseDate_valid s d H) as [t Ht].
  exists t. destruct d as [x]. cbn [getTime] in Ht. now rewrite Ht.
Qed.

Lemma parseDate_first_shape (m d y ws h mi : string) :
  digitGroup 1 2 m -> digitGroup 1 2 d -> digitGroup 4 4 y ->
  spaceRun ws -> digitGroup 1 2 h -> digitGroup 2 2 mi ->
  Local.parseDate (m ++ "/" ++ d ++ "/" ++ y ++ ws ++ h ++ ":" ++ mi)
  = Some (newDate (Some (decimal y)) (Some (decimal m - 1)) (Some (decimal d))).
Proof.
  intros Hm Hd Hy Hws Hh Hmi. unfold Local.parseDate.
  rewrite startsWithDigit_not_sentinel by exact (digitGroup_head 0 2 m _ Hm).
  rewrite (match1_shape m d Hm Hd y ws h mi Hy Hws Hh Hmi).
  rewrite (parseInt_digitGroup 0 2 m Hm), (parseInt_digitGroup 0 2 d Hd),
    (parseInt_digitGroup 3 4 y Hy).
  reflexivity.
Qed.

Lemma parseDate_second_shape (d m y : string) :
  digitGroup 1 2 d -> digitGroup 1 2 m -> digitGroup 2 2 y ->
  Local.parseDate (d ++ "/" ++ m ++ "/" ++ y)
  = Some (newDate
            (Some (if 50 <? decimal y then 1900 + decimal y else 2000 + decimal y))
            (Some (decimal m - 1)) (Some (decimal d))).
Proof.
  intros Hd Hm Hy. unfold Local.parseDate.
  rewrite startsWithDigit_not_sentinel by exact (digitGroup_head 0 2 d _ Hd).
  destruct (match2_shape d m Hd Hm y Hy) as [-> ->].
  rewrite (parseInt_digitGroup 0 2 m Hm), (parseInt_digitGroup 0 2 d Hd),
    (parseInt_digitGroup 1 2 y Hy).
  cbn [Local.gt50]. destruct (50 <? decimal y); reflexivity.
Qed.

(** X5: the date parser checks no range.  Every string of one of its two
    shapes parses, and to a valid date, whatever its digits: a month 00 or
    13 to 99 and a day 00 or 32 to 99 are carried over into the neighbouring
    months and years by the [Date] constructor.  So the thirty-first of
    February is read as the second of March. *)
Theorem X5_no_range_check :
  (forall m d y ws h mi : string,
      digitGroup 1 2 m -> digitGroup 1 2 d -> digitGroup 4 4 y ->
      spaceRun ws -> digitGroup 1 2 h -> digitGroup 2 2 mi ->
      exists t : Z,
        Local.parseDate (m ++ "/" ++ d ++ "/" ++ y ++ ws ++ h ++ ":" ++ mi)
        = Some (mkDate (Some t)))
  /\ (forall d m y : string,
      digitGroup 1 2 d -> digitGroup 1 2 m -> digitGroup 2 2 y ->
      exists t : Z,
        Local.parseDate (d ++ "/" ++ m ++ "/" ++ y) = Some (mkDate (Some t)))
  /\ Local.parseDate "31/2/24" = Local.parseDate "2/3/24".
Proof.
  split; [|split].
  - intros m d y ws h mi Hm Hd Hy Hws Hh Hmi.
    pose proof (parseDate_first_shape m d y ws h mi Hm Hd Hy Hws Hh Hmi) as H.
    destruct (parseDate_matched_valid _ _ H) as [t Ht]. exists t. now rewrite H, Ht.
  - intros d m y Hd Hm Hy.
    pose proof (parseDate_second_shape d m y Hd Hm Hy) as H.
    destruct (parseDate_matched_valid _ _ H) as [t Ht]. exists t. now rewrite H, Ht.
  - reflexivity.
Qed.

End NoRangeCheck.

(** X5 on the reference host: [99/99/99] is a date. *)
Lemma X5_no_range_check_witness :
  exists t : Z, @Local.parseDate hostRuntime "99/99/99" = Some (mkDate (Some t)).
Proof.
  apply (proj1 (proj2 (@X5_no_range_check hostRuntime)) "99" "99" "99");
    split; try reflexivity; simpl; lia.
Defined.

(** ** The order of the two dates does not matter *)

Section Symmetry.

Context {rt : Runtime}.

Lemma parseDate_sentinel (s : string) :
  s = "-" \/ s = "Unknown" -> Local.parseDate s = None.
Proof. intros [->| ->]; reflexivity. Qed.

Lemma abs_sub_comm (x y : number) : Math_abs (sub x y) = Math_abs (sub y x).
Proof.
  destruct x as [a|], y as [b|]; try reflexivity.
  cbn. f_equal. lia.
Qed.

(** X6: the resolution time depends on the two dates only through the
    absolute value of their difference: two records of which one has for
    creation date what the other has for closing date, and the reverse, get
    the same resolution time.  An issue closed before it was created is
    shown with a positive duration. *)
Theorem X6_resolution_is_symmetric (r1 r2 : IssueRow) :
  Local.getCreatedOn r1 = Local.getClosedOn r2 ->
  Local.getClosedOn r1 = Local.getCreatedOn r2 ->
  Local.getResolutionDays r1 = Local.getResolutionDays r2.
Proof.
  intros H1 H2. unfold Local.getResolutionDays. rewrite H1, H2.
  generalize (Local.getCreatedOn r2) (Local.getClosedOn r2). intros c d.
  destruct (String.eqb_spec c "-") as [Ec|_].
  { subst c. cbn [orb]. rewrite (parseDate_sentinel "-") by now left.
    destruct ((d =? "-") || (d =? "Unknown"))%string; [reflexivity|].
    now destruct (Local.parseDate d). }
  destruct (String.eqb_spec c "Unknown") as [Ec|_].
  { subst c. cbn [orb]. rewrite (parseDate_sentinel "Unknown") by now right.
    destruct ((d =? "-") || (d =? "Unknown"))%string; [reflexivity|].
    now destruct (Local.parseDate d). }
  cbn [orb].
  destruct (String.eqb_spec d "-") as [Ed|_].
  { subst d. cbn [orb]. rewrite (parseDate_sentinel "-") by now left. reflexivity. }
  destruct (String.eqb_spec d "Unknown") as [Ed|_].
  { subst d. cbn [orb]. rewrite (parseDate_sentinel "Unknown") by now right.
    reflexivity. }
  cbn [orb].
  destruct (Local.parseDate c) as [dc|], (Local.parseDate d) as [dd|];
    try reflexivity.
  now rewrite abs_sub_comm.
Qed.

End Symmetry.

(** X6 on the reference host: two days forwards and two days backwards. *)
Lemma X6_resolution_is_symmetric_witness :
  @Local.getResolutionDays hostRuntime rowTwoDays
  = @Local.getResolutionDays hostRuntime rowBackwards.
Proof.
  apply (@X6_resolution_is_symmetric hostRuntime rowTwoDays rowBackwards);
    reflexivity.
Defined.

(** ** The colour of the resolution badge *)

Section Badge.

Context {rt : Runtime}.

Lemma ceil_div_le (a d k : Z) :
  0 <= a -> 0 < d -> (- ((- a) / d) <=? k) = (a <=? k * d).
Proof.
  intros Ha Hd. destruct (ceil_div_spec a d Ha Hd) as (_ & Hlo & Hhi).
  destruct (Z.leb_spec (- ((- a) / d)) k), (Z.leb_spec a (k * d));
    try reflexivity; exfalso; nia.
Qed.

(** X7: for a record whose two dates parse, the badge in the resolution
    column is green when the dates are at most one day apart, blue up to
    seven days, amber up to thirty and red beyond, the day being
    86 400 000 ms; a record without resolution time has no badge. *)
Theorem X7_badge_by_elapsed_time (row : IssueRow) (tc td : Z) :
  Local.parseDate (Local.getCreatedOn row) = Some (mkDate (Some tc)) ->
  Local.parseDate (Local.getClosedOn row) = Some (mkDate (Some td)) ->
  Local.resolutionBadge (Local.getResolutionDays row)
  = Some (if Z.abs (td - tc) <=? 1 * 86400000 then "bg-green-100 text-green-700"
          else if Z.abs (td - tc) <=? 7 * 86400000 then "bg-blue-100 text-blue-700"
          else if Z.abs (td - tc) <=? 30 * 86400000 then "bg-amber-100 text-amber-700"
          else "bg-red-100 text-red-700").
Proof.
  intros Hpc Hpd.
  assert (Hd : Local.getClosedOn row <> "-").
  { intros E. rewrite E in Hpd. discriminate Hpd. }
  assert (Hu : Local.getClosedOn row <> "Unknown").
  { intros E. rewrite E in Hpd. discriminate Hpd. }
  rewrite (getResolutionDays_parsed row _ _ tc td Hd Hu Hpc Hpd eq_refl eq_refl).
  pose proof (ceil_div_spec (Z.abs (td - tc)) msPerDay (Z.abs_nonneg _) eq_refl)
    as (Hn & _).
  unfold Local.resolutionBadge.
  destruct (String.eqb_spec
              (Number_toString (Some (- (- Z.abs (td - tc) / msPerDay)))) "-")
    as [E|_]; [now apply Number_toString_not_dash in E|].
  cbn [negb]. rewrite (parseInt_toString _ Hn). cbn [Local.le].
  rewrite !(ceil_div_le (Z.abs (td - tc)) msPerDay) by (try apply Z.abs_nonneg; reflexivity).
  reflexivity.
Qed.

End Badge.

(** X7 on the reference host: closed after two days, a blue badge. *)
Lemma X7_badge_by_elapsed_time_witness :
  Local.resolutionBadge (@Local.getResolutionDays hostRuntime rowTwoDays)
  = Some "bg-blue-100 text-blue-700".
Proof.
  apply (@X7_badge_by_elapsed_time hostRuntime rowTwoDays
           1704067200000 1704240000000); reflexivity.
Defined.

(** ** Search by id *)

Lemma find_first {A : Type} (p : A -> bool) (l : list A) (x : A) :
  find p l = Some x ->
  exists pre post, l = (pre ++ x :: post)%list /\ p x = true
                   /\ forall y, In y pre -> p y = false.
Proof.
  induction l as [|a l IH]; [discriminate|].
  cbn [find]. destruct (p a) eqn:Ha.
  - intros [= <-]. exists [], l. repeat split; [exact Ha | intros y []].
  - intros H. destruct (IH H) as (pre & post & -> & Hx & Hpre).
    exists (a :: pre), post. repeat split; [exact Hx|].
    intros y [<-|Hy]; [exact Ha | now apply Hpre].
Qed.

(** X8: a search whose query is blank after trimming does nothing.
    Otherwise the query is trimmed and compared with the resolved id of each
    record: the first record of the dataset whose id equals it becomes the
    search result and its detail view opens; when no record has that id the
    state is left as it was and one message says so. *)
Theorem X8_search_finds_first_match (st : Local.State) :
  (trim (Local.searchId st) = "" -> Local.handleSearch st = (st, []))
  /\ (trim (Local.searchId st) <> "" ->
      (exists pre found post,
          Local.data st = (pre ++ found :: post)%list
          /\ Local.getId found = trim (Local.searchId st)
          /\ (forall r, In r pre -> Local.getId r <> trim (Local.searchId st))
          /\ Local.handleSearch st
             = (Local.mkState (Local.data st) (Local.loading st)
                  (Local.fileName st) (Local.selectedFilter st)
                  (Local.showModal st) (Local.searchId st) (Some found) true,
                []))
      \/ ((forall r, In r (Local.data st) ->
              Local.getId r <> trim (Local.searchId st))
          /\ Local.handleSearch st
             = (st, ["No issue found with ID: " ++ Local.searchId st]))).
Proof.
  unfold Local.handleSearch. split.
  - intros ->. reflexivity.
  - intros Hq.
    destruct (String.eqb_spec (trim (Local.searchId st)) "") as [E|_];
      [contradiction|].
    destruct (find _ (Local.data st)) as [found|] eqn:F.
    + left. destruct (find_first _ _ _ F) as (pre & post & Hd & Hx & Hpre).
      exists pre, found, post. repeat split.
      * exact Hd.
      * now apply String.eqb_eq.
      * intros r Hr. apply String.eqb_neq. now apply Hpre.
    + right. split; [|reflexivity].
      intros r Hr. apply String.eqb_neq. exact (find_none _ _ F r Hr).
Qed.

(** X8 on a query of blanks. *)
Lemma X8_search_finds_first_match_witness :
  Local.handleSearch
    (Local.mkState openThenClosed false "issues.csv" None false "   " None false)
  = (Local.mkState openThenClosed false "issues.csv" None false "   " None false,
     []).
Proof.
  apply (proj1 (X8_search_finds_first_match
                  (Local.mkState openThenClosed false "issues.csv" None false
                     "   " None false))).
  reflexivity.
Defined.

(** ** The kind of an uploaded file *)

Lemma split_plain (sep : ascii) (s : string) :
  contains sep s = false -> split sep s = [s].
Proof.
  induction s as [|c s IH]; [reflexivity|].
  cbn [contains split]. intros H. apply orb_false_iff in H as [Hc Hs].
  now rewrite Hc, (IH Hs).
Qed.

Lemma split_suffix (sep : ascii) (ext : string) :
  contains sep ext = false ->
  forall base : string,
  exists h t, split sep (base ++ String sep ext) = (h :: t ++ [ext])%list.
Proof.
  intros He. induction base as [|c base (h & t & IH)].
  - exists "", []. cbn [append split]. now rewrite Ascii.eqb_refl, (split_plain _ _ He).
  - cbn [append split]. rewrite IH. destruct (Ascii.eqb c sep).
    + now exists "", (h :: t).
    + now exists (String c h), t.
Qed.

Lemma lowerChar_idempotent (c : ascii) : lowerChar (lowerChar c) = lowerChar c.
Proof.
  destruct c as [b0 b1 b2 b3 b4 b5 b6 b7].
  destruct b0, b1, b2, b3, b4, b5, b6, b7; reflexivity.
Qed.

Lemma lowerChar_dot (c : ascii) : Ascii.eqb (lowerChar c) "." = Ascii.eqb c ".".
Proof.
  destruct c as [b0 b1 b2 b3 b4 b5 b6 b7].
  destruct b0, b1, b2, b3, b4, b5, b6, b7; reflexivity.
Qed.

Lemma toLowerCase_idempotent (s : string) :
  toLowerCase (toLowerCase s) = toLowerCase s.
Proof.
  induction s as [|c s IH]; [reflexivity|].
  cbn [toLowerCase]. now rewrite lowerChar_idempotent, IH.
Qed.

Lemma toLowerCase_dot (s : string) :
  contains "." (toLowerCase s) = contains "." s.
Proof.
  induction s as [|c s IH]; [reflexivity|].
  cbn [toLowerCase contains]. now rewrite lowerChar_dot, IH.
Qed.

Lemma fileExtension_plain (name : string) :
  contains "." name = false -> Local.fileExtension name = Some (toLowerCase name).
Proof.
  intros H. unfold Local.fileExtension. now rewrite (split_plain _ _ H).
Qed.

(** X9: only the text after the last dot of a file name decides how the
    file is read, and its case does not matter; a name without a dot is its
    own extension. *)
Theorem X9_kind_by_last_extension (base ext : string) :
  contains "." ext = false ->
  Local.fileExtension (base ++ "." ++ ext) = Some (toLowerCase ext)
  /\ Local.fileExtension ext = Some (toLowerCase ext)
  /\ Local.fileKind (base ++ "." ++ ext) = Local.fileKind ext
  /\ Local.fileKind (toLowerCase ext) = Local.fileKind ext.
Proof.
  intros He.
  assert (H1 : Local.fileExtension (base ++ "." ++ ext) = Some (toLowerCase ext)).
  { unfold Local.fileExtension.
    destruct (split_suffix "." ext He base) as (h & t & Hs).
    cbn [append]. rewrite Hs. cbn [pop]. now rewrite last_last. }
  pose proof (fileExtension_plain ext He) as H2.
  assert (H3 : Local.fileExtension (toLowerCase ext) = Some (toLowerCase ext)).
  { rewrite fileExtension_plain by now rewrite toLowerCase_dot.
    now rewrite toLowerCase_idempotent. }
  unfold Local.fileKind. rewrite H1, H2, H3. repeat split.
Qed.

(** X9 on an upper-case extension after two dots. *)
Lemma X9_kind_by_last_extension_witness :
  Local.fileKind "issues.2024.CSV" = Local.Csv.
Proof.
  change (Local.fileKind ("issues.2024" ++ "." ++ "CSV") = Local.Csv).
  rewrite (proj1 (proj2 (proj2 (X9_kind_by_last_extension "issues.2024" "CSV" eq_refl)))).
  reflexivity.
Defined.

(** ** What an upload changes *)

(** X10: once the reader of a chosen file has called back, the loading flag
    is off and the file name shown is that of the chosen file, whatever
    happened.  The dataset is replaced only when the file is of a supported
    kind and its reader delivered rows; otherwise the previous dataset stays,
    under the name of the file that was refused, and exactly one message is
    put up.  The selection and the search are never touched, and choosing no
    file changes nothing at all. *)
Theorem X10_upload_outcomes (st : Local.State) (name : string)
    (result : Local.ReaderResult) :
  Local.handleFileUpload None st = (st, [])
  /\ Local.loading (fst (Local.handleFileUpload (Some (name, result)) st)) = false
  /\ Local.fileName (fst (Local.handleFileUpload (Some (name, result)) st)) = name
  /\ Local.selectedFilter (fst (Local.handleFileUpload (Some (name, result)) st))
     = Local.selectedFilter st
  /\ Local.showModal (fst (Local.handleFileUpload (Some (name, result)) st))
     = Local.showModal st
  /\ Local.searchId (fst (Local.handleFileUpload (Some (name, result)) st))
     = Local.searchId st
  /\ Local.searchResult (fst (Local.handleFileUpload (Some (name, result)) st))
     = Local.searchResult st
  /\ Local.showSearchModal (fst (Local.handleFileUpload (Some (name, result)) st))
     = Local.showSearchModal st
  /\ ((exists rows,
          result = Local.Rows rows
          /\ (Local.fileKind name = Local.Csv \/ Local.fileKind name = Local.Excel)
          /\ Local.data (fst (Local.handleFileUpload (Some (name, result)) st)) = rows
          /\ snd (Local.handleFileUpload (Some (name, result)) st) = [])
      \/ (Local.data (fst (Local.handleFileUpload (Some (name, result)) st))
          = Local.data st
          /\ List.length (snd (Local.handleFileUpload (Some (name, result)) st))
             = 1%nat)).
Proof.
  unfold Local.handleFileUpload.
  split; [reflexivity|].
  destruct (Local.fileKind name), result as [rows| |]; cbn [fst snd];
    repeat (split; [reflexivity|]);
    first [ right; split; reflexivity
          | left; exists rows; repeat split; auto ].
Qed.

(** ** The getters of the two variants *)

Lemma getColumnValue_first_alias_text (row : IssueRow) (a : string)
    (rest : list string) (s : string) :
  prop row a = Some (Str s) -> s <> "" ->
  Local.getColumnValue row (a :: rest) = trim s.
Proof.
  intros Hp Hne. unfold Local.getColumnValue. cbn [Local.exactPass].
  rewrite Hp. cbn [present ToString].
  now destruct (String.eqb_spec s "").
Qed.

Lemma prop_in_keys (row : IssueRow) (k : string) (v : cell) :
  prop row k = Some v -> In k (keys row).
Proof.
  induction row as [|[k' v'] row IH]; [discriminate|].
  cbn [prop keys map fst]. destruct (String.eqb_spec k' k) as [->|_].
  - now left.
  - intros H. right. now apply IH.
Qed.

(** X11: where the getters of the two variants agree and where they do not.
    On a priority cell holding a non-empty text both return the trimmed text.
    On such a status cell the remote getter returns the text as it stands and
    the local one trims it.  On a priority cell holding a number other than
    zero the remote getter fails, since a number has no [trim], and the local
    one returns the number's decimal form, for a number below 2^53 in
    absolute value: up to there the digits of an integer are what [String]
    prints of it.  And when no column reads as the
    status column the remote getter answers ["-"] and the local one
    ["Unknown"]. *)
Theorem X11_getters_of_the_two_variants (row : IssueRow) :
  (forall s, prop row "Priority" = Some (Str s) -> s <> "" ->
     Remote.getPriority row = Remote.Returns (Local.getPriority row)
     /\ Local.getPriority row = trim s)
  /\ (forall s, prop row "Status" = Some (Str s) -> s <> "" ->
        Remote.getStatus row = Some (Str s) /\ Local.getStatus row = trim s)
  /\ (forall n, prop row "Priority" = Some (Num n) -> n <> 0 ->
        Remote.getPriority row = Remote.TypeError
        /\ (Z.abs n < 9007199254740992 ->
            Local.getPriority row = trim (Number_toString (Some n))))
  /\ ((forall k, In k (keys row) ->
          Local.aliasMatches (toLowerCase (trim k)) Local.statusNames = false) ->
      Remote.getStatus row = Some (Str "-") /\ Local.getStatus row = "Unknown").
Proof.
  split; [|split; [|split]].
  - intros s Hp Hne.
    assert (HL : Local.getPriority row = trim s)
      by exact (getColumnValue_first_alias_text row "Priority" _ s Hp Hne).
    split; [|exact HL].
    unfold Remote.getPriority, Remote.orElse. rewrite Hp, HL. cbn [falsy].
    now destruct (String.eqb_spec s "").
  - intros s Hp Hne. split.
    + unfold Remote.getStatus, Remote.orElse. rewrite Hp. cbn [falsy].
      now destruct (String.eqb_spec s "").
    + exact (getColumnValue_first_alias_text row "Status" _ s Hp Hne).
  - intros n Hp Hne. split.
    + unfold Remote.getPriority, Remote.orElse. rewrite Hp. cbn [falsy].
      now destruct (Z.eqb_spec n 0).
    + intros _. unfold Local.getPriority, Local.getColumnValue, Local.priorityNames.
      cbn [Local.exactPass]. now rewrite Hp.
  - intros Hk.
    assert (Hnone : forall a, In a Local.statusNames -> prop row a = None).
    { intros a Ha. destruct (prop row a) as [v|] eqn:E; [|reflexivity].
      exfalso. apply prop_in_keys in E. specialize (Hk a E).
      cbn in Ha. destruct Ha as [<-|[<-|[<-|[]]]]; discriminate Hk. }
    split.
    + unfold Remote.getStatus, Remote.orElse.
      now rewrite (Hnone "Status") by now left.
    + apply getColumnValue_unknown; [|exact Hk].
      intros b Hb. now rewrite (Hnone b Hb).
Qed.

(** X11 on a row with a padded status. *)
Lemma X11_getters_witness :
  Remote.getStatus rowTwoStatus = Some (Str "Open")
  /\ Local.getStatus rowTwoStatus = trim "Open".
Proof.
  apply (proj1 (proj2 (X11_getters_of_the_two_variants rowTwoStatus)) "Open").
  - reflexivity.
  - discriminate.
Defined.

(** ** The address of a filter request *)

Lemma code_bounds (c : ascii) : 0 <= code c < 256.
Proof.
  unfold code. pose proof (N_ascii_bounded c). lia.
Qed.

Lemma hexDigit_unreserved (n : Z) : 0 <= n < 16 -> isUnreserved (hexDigit n) = true.
Proof.
  intros Hn. rewrite <- (Z2Nat.id n) by lia.
  assert (Hk : (Z.to_nat n < 16)%nat) by lia.
  revert Hk. generalize (Z.to_nat n). intros k Hk.
  do 16 (destruct k as [|k]; [reflexivity|]). lia.
Qed.

Lemma percent_chars (octet : Z) (c : ascii) :
  0 <= octet < 256 -> In c (chars (percent octet)) ->
  isUnreserved c = true \/ c = "%"%char.
Proof.
  intros Ho. unfold percent, chars. cbn [list_ascii_of_string].
  intros [<-|[<-|[<-|[]]]].
  - now right.
  - left. apply hexDigit_unreserved. Z.div_mod_to_equations. lia.
  - left. apply hexDigit_unreserved. Z.div_mod_to_equations. lia.
Qed.

Lemma chars_app (s t : string) : chars (s ++ t) = (chars s ++ chars t)%list.
Proof.
  unfold chars. induction s as [|c s IH]; [reflexivity|].
  cbn [append list_ascii_of_string app]. now rewrite IH.
Qed.

Lemma encodeUnit_chars (a c : ascii) :
  In c (chars (encodeUnit a)) -> isUnreserved c = true \/ c = "%"%char.
Proof.
  unfold encodeUnit. pose proof (code_bounds a) as Ha.
  destruct (isUnreserved a) eqn:Hu.
  - intros [<-|[]]. now left.
  - destruct (Z.ltb_spec (code a) 128) as [Hlt|Hge].
    + apply percent_chars. lia.
    + rewrite chars_app. intros H. apply in_app_or in H as [H|H];
        revert H; apply percent_chars; Z.div_mod_to_equations; lia.
Qed.

Lemma encodeURIComponent_chars (v : string) (c : ascii) :
  In c (chars (encodeURIComponent v)) -> isUnreserved c = true \/ c = "%"%char.
Proof.
  induction v as [|a v IH]; [intros []|].
  cbn [encodeURIComponent]. rewrite chars_app. intros H.
  apply in_app_or in H as [H|H]; [exact (encodeUnit_chars a c H) | exact (IH H)].
Qed.

Lemma contains_chars (c : ascii) (s : string) :
  contains c s = true -> In c (chars s).
Proof.
  unfold chars. induction s as [|a s IH]; [discriminate|].
  cbn [contains list_ascii_of_string]. intros H. apply orb_true_iff in H as [H|H].
  - left. now apply Ascii.eqb_eq.
  - right. now apply IH.
Qed.

(** X12: for each of the four kinds the address asked for is the base
    address, [/filter?], the kind, [=] and the encoded value, and for any
    other kind it carries no parameter at all.  The encoded value consists of
    letters, digits, the marks [-_.!~*'()] and the percent sign only: no
    [&], [=], [#], [?], [/] or blank of the selected value reaches the
    address, so a value can never add a parameter of its own. *)
Theorem X12_filter_address (type v : string) :
  (In type ["status"; "priority"; "type"; "state"] ->
   Remote.filterUrl type v
   = Remote.API_URL ++ "/filter?" ++ type ++ "=" ++ encodeURIComponent v)
  /\ (~ In type ["status"; "priority"; "type"; "state"] ->
      Remote.filterUrl type v = Remote.API_URL ++ "/filter?")
  /\ (forall c, In c (chars (encodeURIComponent v)) ->
        isUnreserved c = true \/ c = "%"%char)
  /\ (forall c, In c (chars "&=#?/ +") -> contains c (encodeURIComponent v) = false).
Proof.
  split; [|split; [|split]].
  - intros [<-|[<-|[<-|[<-|[]]]]]; reflexivity.
  - intros Hn. unfold Remote.filterUrl.
    destruct (String.eqb_spec type "status") as [->|_];
      [exfalso; apply Hn; now left|].
    destruct (String.eqb_spec type "priority") as [->|_];
      [exfalso; apply Hn; now right; left|].
    destruct (String.eqb_spec type "type") as [->|_];
      [exfalso; apply Hn; now right; right; left|].
    destruct (String.eqb_spec type "state") as [->|_];
      [exfalso; apply Hn; now right; right; right; left|].
    reflexivity.
  - apply encodeURIComponent_chars.
  - intros c Hc. destruct (contains c (encodeURIComponent v)) eqn:E; [|reflexivity].
    exfalso. apply contains_chars, encodeURIComponent_chars in E.
    cbn in Hc.
    destruct Hc as [<-|[<-|[<-|[<-|[<-|[<-|[<-|[]]]]]]]];
      destruct E as [E|E]; discriminate E.
Qed.

(** X12 on a value with an ampersand and a blank. *)
Lemma X12_filter_address_witness :
  Remote.filterUrl "status" "In Progress&x=1"
  = "http://localhost:5000/api/filter?status=In%20Progress%26x%3D1".
Proof.
  rewrite (proj1 (X12_filter_address "status" "In Progress&x=1")).
  - reflexivity.
  - left. reflexivity.
Defined.

(** ** What a refresh changes *)

(** X13: once a refresh is over the loading flag is off, so the spinner is
    gone; the dashboard is drawn exactly when both requests succeeded, and
    the error screen otherwise.  When both succeed, the issues and the
    statistics are replaced and the error is cleared.  When the issues arrive
    and the statistics do not, the new issues are kept beside the previous
    statistics.  When the issues do not arrive, neither is changed.  The
    selection, the filtered rows and the search are never touched. *)
Theorem X13_refresh_outcomes (issues : Remote.Fetched (list IssueRow))
    (statistics : Remote.Fetched Remote.Stats) (st : Remote.State) :
  Remote.loading (Remote.fetchData issues statistics st) = false
  /\ (Remote.screen (Remote.fetchData issues statistics st) = Remote.Dashboard
      <-> exists i s, issues = Remote.Ok i /\ statistics = Remote.Ok s)
  /\ (Remote.screen (Remote.fetchData issues statistics st) = Remote.Dashboard
      \/ Remote.screen (Remote.fetchData issues statistics st) = Remote.ErrorScreen)
  /\ (forall i s, issues = Remote.Ok i -> statistics = Remote.Ok s ->
        Remote.data (Remote.fetchData issues statistics st) = i
        /\ Remote.stats (Remote.fetchData issues statistics st) = Some s
        /\ Remote.error (Remote.fetchData issues statistics st) = "")
  /\ (forall i, issues = Remote.Ok i -> statistics = Remote.Failed ->
        Remote.data (Remote.fetchData issues statistics st) = i
        /\ Remote.stats (Remote.fetchData issues statistics st) = Remote.stats st)
  /\ (issues = Remote.Failed ->
        Remote.data (Remote.fetchData issues statistics st) = Remote.data st
        /\ Remote.stats (Remote.fetchData issues statistics st) = Remote.stats st)
  /\ (Remote.selectedFilter (Remote.fetchData issues statistics st)
      = Remote.selectedFilter st
      /\ Remote.filteredData (Remote.fetchData issues statistics st)
         = Remote.filteredData st
      /\ Remote.showModal (Remote.fetchData issues statistics st)
         = Remote.showModal st
      /\ Remote.searchId (Remote.fetchData issues statistics st)
         = Remote.searchId st
      /\ Remote.searchResult (Remote.fetchData issues statistics st)
         = Remote.searchResult st
      /\ Remote.showSearchModal (Remote.fetchData issues statistics st)
         = Remote.showSearchModal st).
Proof.
  destruct issues as [i|], statistics as [s|];
    (split; [reflexivity|]); (split; [|split; [|split; [|split; [|split]]]]);
    try (repeat split; reflexivity);
    try (intros; discriminate);
    try (split; [intros _; eauto | reflexivity]);
    try (split; [discriminate | intros (i' & s' & H1 & H2); discriminate]);
    try (left; reflexivity); try (right; reflexivity);
    try (intros i' s' [= <-] [= <-]; repeat split; reflexivity);
    try (intros i' [= <-] _; split; reflexivity);
    try (intros _; split; reflexivity).
Qed.

(** X13 on a refresh whose statistics fail: new issues, old statistics. *)
Lemma X13_refresh_outcomes_witness :
  Remote.data
    (Remote.fetchData (Remote.Ok openThenClosed) Remote.Failed
       (Remote.mkState [] None true "" None [] false "" None false))
  = openThenClosed
  /\ Remote.stats
       (Remote.fetchData (Remote.Ok openThenClosed) Remote.Failed
          (Remote.mkState [] None true "" None [] false "" None false))
     = None.
Proof.
  apply (proj1 (proj2 (proj2 (proj2 (proj2
           (X13_refresh_outcomes (Remote.Ok openThenClosed) Remote.Failed
              (Remote.mkState [] None true "" None [] false "" None false)))))));
    reflexivity.
Defined.

(** ** The key figures of the remote variant on locally counted buckets *)

Lemma countOf_buckets (getter : IssueRow -> string) (data : list IssueRow)
    (k : string) :
  isInherited k = false ->
  Remote.countOf (Local.toChartData (Local.countBy getter data)) k
  = Prim (Num (Z.of_nat (occurrences getter data k))).
Proof.
  intros Hk. destruct (countBy_holds getter data) as [Hnd Hown].
  specialize (Hown k). rewrite (counted_plain _ _ Hk) in Hown.
  unfold Remote.countOf, occurrences.
  destruct (find _ (Local.toChartData (Local.countBy getter data))) as [b|] eqn:F.
  - apply find_some in F as [Hin Hb]. apply String.eqb_eq in Hb. subst k.
    apply toChartData_in, (own_in _ _ _ Hnd) in Hin. rewrite Hin in Hown.
    destruct (count_occ string_dec (map getter data) (name b));
      [discriminate Hown|].
    now injection Hown as ->.
  - destruct (count_occ string_dec (map getter data) k) as [|n]; [reflexivity|].
    exfalso. apply in_own in Hown.
    apply (toChartData_in _ (mkChartData k (Num (Z.of_nat (S n))))) in Hown.
    pose proof (find_none _ _ F _ Hown) as Hf. cbn [name] in Hf.
    rewrite String.eqb_refl in Hf. discriminate Hf.
Qed.

(** X14: when the statistics hold the buckets the local variant counts for a
    dataset, the remote variant, which searches the bucket sequences, shows
    the same open, closed and urgent figures as the local one, which looks
    them up in its dictionaries; without statistics it shows zeros. *)
Theorem X14_key_figures_agree (data : list IssueRow) (stats : Remote.Stats) :
  Remote.byStatus stats = Local.statusData data ->
  Remote.byPriority stats = Local.priorityData data ->
  Remote.openCount (Some stats) = Local.openCount data
  /\ Remote.closedCount (Some stats) = Local.closedCount data
  /\ Remote.urgentCount (Some stats) = Local.urgentCount data
  /\ Remote.openCount None = Prim (Num 0)
  /\ Remote.closedCount None = Prim (Num 0)
  /\ Remote.urgentCount None = Prim (Num 0).
Proof.
  intros Hs Hp.
  unfold Remote.openCount, Remote.closedCount, Remote.urgentCount,
    Remote.statusData, Remote.priorityData.
  rewrite Hs, Hp, urgentCount_occurrences.
  unfold Local.statusData, Local.priorityData, Local.statusCounts,
    Local.priorityCounts, Local.openCount, Local.closedCount, Local.statusCounts.
  rewrite !countOf_buckets, !orZero_get_countBy by reflexivity. repeat split.
Qed.

(** X14 on one open and two closed issues. *)
Lemma X14_key_figures_agree_witness :
  Remote.closedCount
    (Some (Remote.mkStats 3 (Local.statusData openThenClosed)
             (Local.priorityData openThenClosed) [] [] "0"))
  = Local.closedCount openThenClosed.
Proof.
  apply (proj1 (proj2 (X14_key_figures_agree openThenClosed
                         (Remote.mkStats 3 (Local.statusData openThenClosed)
                            (Local.priorityData openThenClosed) [] [] "0")
                         eq_refl eq_refl))).
Defined.

(** ** The resolution time of the remote variant *)

Section RemoteResolution.

Context {rt : Runtime}.

(** X15: the remote calculator answers ["-"] exactly when one of the two
    cells is missing, empty or zero, or when the host's [Date] cannot read
    one of them; otherwise, the two time values being less than 2^53 ms
    apart, it answers the decimal form of the non-negative integer
    ceil(|closed - created| / 86 400 000): up to that distance the doubles
    the code computes with hold the difference and the ceiling of the
    quotient exactly. *)
Theorem X15_remote_resolution_days (row : IssueRow) :
  (Remote.getResolutionDays row = "-" <->
     falsy (prop row "closed_on") = true
     \/ falsy (prop row "created_on") = true
     \/ getTime (Remote.newDateOfCell (prop row "created_on")) = NaN
     \/ getTime (Remote.newDateOfCell (prop row "closed_on")) = NaN)
  /\ (forall tc td : Z,
        falsy (prop row "closed_on") = false ->
        falsy (prop row "created_on") = false ->
        getTime (Remote.newDateOfCell (prop row "created_on")) = Some tc ->
        getTime (Remote.newDateOfCell (prop row "closed_on")) = Some td ->
        Z.abs (td - tc) < 9007199254740992 ->
        exists n : Z,
          0 <= n
          /\ (n - 1) * 86400000 < Z.abs (td - tc) <= n * 86400000
          /\ Remote.getResolutionDays row = Number_toString (Some n)).
Proof.
  assert (P : forall tc td : Z,
        falsy (prop row "closed_on") = false ->
        falsy (prop row "created_on") = false ->
        getTime (Remote.newDateOfCell (prop row "created_on")) = Some tc ->
        getTime (Remote.newDateOfCell (prop row "closed_on")) = Some td ->
        Z.abs (td - tc) < 9007199254740992 ->
        exists n : Z,
          0 <= n
          /\ (n - 1) * 86400000 < Z.abs (td - tc) <= n * 86400000
          /\ Remote.getResolutionDays row = Number_toString (Some n)).
  { intros tc td Hd Hc Htc Htd _.
    exists (- ((- Z.abs (td - tc)) / msPerDay)).
    pose proof (ceil_div_spec (Z.abs (td - tc)) msPerDay (Z.abs_nonneg _) eq_refl)
      as (Hn & Hlo & Hhi).
    change 86400000 with msPerDay. repeat split; try assumption.
    unfold Remote.getResolutionDays. now rewrite Hd, Hc, Htc, Htd. }
  split; [|exact P].
  unfold Remote.getResolutionDays. split.
  - intros Hr.
    destruct (falsy (prop row "closed_on")) eqn:Hd; [now left|].
    destruct (falsy (prop row "created_on")) eqn:Hc; [now right; left|].
    destruct (getTime (Remote.newDateOfCell (prop row "created_on"))) as [tc|] eqn:Htc;
      [|now right; right; left].
    destruct (getTime (Remote.newDateOfCell (prop row "closed_on"))) as [td|] eqn:Htd;
      [|now right; right; right].
    exfalso. cbn [orb isNaN] in Hr.
    apply (Number_toString_not_dash (- ((- Z.abs (td - tc)) / msPerDay)));
      [|exact Hr].
    apply (ceil_div_spec (Z.abs (td - tc)) msPerDay (Z.abs_nonneg _) eq_refl).
  - intros [H|[H|[H|H]]]; rewrite H.
    + reflexivity.
    + now rewrite orb_true_r.
    + now destruct (falsy (prop row "closed_on") || falsy (prop row "created_on")).
    + destruct (falsy (prop row "closed_on") || falsy (prop row "created_on"));
        [reflexivity|].
      now rewrite orb_true_r.
Qed.

End RemoteResolution.

(** X15 on the reference host: the thirteen hours of one day count as a day. *)
Lemma X15_remote_resolution_days_witness :
  exists n : Z,
    0 <= n
    /\ (n - 1) * 86400000 < Z.abs (1709681400000 - 1709634600000) <= n * 86400000
    /\ @Remote.getResolutionDays hostRuntime rowSameDay = Number_toString (Some n).
Proof.
  apply (proj2 (@X15_remote_resolution_days hostRuntime rowSameDay)
           1709634600000 1709681400000); reflexivity.
Defined.

(** ** Averages that are whole tenths *)

Lemma Qfloor_unique (y : Q) (t : Z) :
  (inject_Z t <= y)%Q -> (y < inject_Z t + 1)%Q -> Qfloor y = t.
Proof.
  intros Hlo Hhi.
  pose proof (Qfloor_le y) as Fl. pose proof (Qlt_floor y) as Fh.
  rewrite inject_Z_plus in Fh. change (inject_Z 1) with 1%Q in Fh.
  assert (H1 : (inject_Z (Qfloor y) < inject_Z (t + 1))%Q).
  { rewrite inject_Z_plus. change (inject_Z 1) with 1%Q. lra. }
  assert (H2 : (inject_Z t < inject_Z (Qfloor y + 1))%Q).
  { rewrite inject_Z_plus. change (inject_Z 1) with 1%Q. lra. }
  rewrite <- Zlt_Qlt in H1, H2. lia.
Qed.

Section ExactAverage.

Context {rt : Runtime}.

Lemma resolutionTimes_of_days (data : list IssueRow) : forall ds : list Z,
  Forall2 (fun row d => 0 <= d
                        /\ Local.getResolutionDays row = Number_toString (Some d))
          (resolved data) ds ->
  Local.resolutionTimes data = map Some ds.
Proof.
  unfold Local.resolutionTimes, resolved.
  induction data as [|row data IH]; intros ds HF.
  - inversion HF. reflexivity.
  - cbn [map flat_map filter] in *.
    destruct (negb (Local.getResolutionDays row =? "-")%string) eqn:E.
    + inversion HF as [|r d rows ds' [Hd Hrow] HF' ]; subst.
      cbn [app map]. rewrite (IH ds' HF'), Hrow, (parseInt_toString d Hd).
      reflexivity.
    + cbn [app]. exact (IH ds HF).
Qed.

(** X16: when the day counts of the resolved records average to a whole
    number of tenths below 2^52, the dashboard shows exactly that number:
    the rounding of the division cannot move it to a neighbouring tenth. *)
Theorem X16_exact_tenths (data : list IssueRow) (ds : list Z) (t : Z) :
  Forall2 (fun row d => 0 <= d
                        /\ Local.getResolutionDays row = Number_toString (Some d))
          (resolved data) ds ->
  ds <> [] ->
  10 * sumZ ds = t * Z.of_nat (List.length ds) ->
  t < 4503599627370496 ->
  Local.avgResolutionTime data
  = Number_toString (Some (t / 10)) ++ "." ++ Number_toString (Some (t mod 10)).
Proof.
  intros HF Hne Ht Hbound.
  pose proof (resolutionTimes_of_days data ds HF) as Hr.
  assert (Hpos : Forall (fun d => 0 <= d) ds).
  { clear -HF. induction HF as [|row d rows ds [Hd _] _ IH]; constructor; assumption. }
  assert (Hlen : 0 < Z.of_nat (List.length ds)).
  { destruct ds; [congruence | simpl; lia]. }
  pose proof (sumZ_nonneg ds Hpos) as Hsum.
  assert (Ht0 : 0 <= t) by nia.
  pose proof (fdiv_accurate (sumZ ds) (Z.of_nat (List.length ds)) Hsum Hlen) as Hacc.
  pose proof (fdiv_nonneg (sumZ ds) (Z.of_nat (List.length ds)) Hsum Hlen) as Hx.
  unfold Local.avgResolutionTime. rewrite Hr, length_map.
  pose proof Hlen as Hlenb. apply Z.ltb_lt in Hlenb. rewrite Hlenb.
  rewrite fold_add_some. cbn [Local.divide Z.add toFixed1].
  pose proof Hx as Hxb. apply Qle_bool_iff in Hxb. rewrite Hxb.
  unfold fixed1.
  assert (Hq : (inject_Z (sumZ ds) / inject_Z (Z.of_nat (List.length ds))
                == inject_Z t * (1 # 10))%Q).
  { assert (Hl : ~ (inject_Z (Z.of_nat (List.length ds)) == 0)%Q).
    { change 0%Q with (inject_Z 0). rewrite inject_Z_injective. lia. }
    assert (Hs : (inject_Z (sumZ ds)
                  == inject_Z t * inject_Z (Z.of_nat (List.length ds)) * (1 # 10))%Q).
    { rewrite <- inject_Z_mult, <- Ht, inject_Z_mult.
      change (inject_Z 10) with 10%Q. lra. }
    rewrite Hs. field. exact Hl. }
  rewrite Hq in Hacc.
  apply Qabs_Qle_condition in Hacc as [Ha1 Ha2].
  assert (Hb : (inject_Z t < 4503599627370496)%Q).
  { change 4503599627370496%Q with (inject_Z 4503599627370496).
    rewrite <- Zlt_Qlt. exact Hbound. }
  assert (Hb0 : (0 <= inject_Z t)%Q).
  { change 0%Q with (inject_Z 0). rewrite <- Zle_Qle. exact Ht0. }
  rewrite (Qfloor_unique (10 * fdiv (sumZ ds) (Z.of_nat (List.length ds)) + (1 # 2)) t).
  - reflexivity.
  - lra.
  - lra.
Qed.

End ExactAverage.

(** X16 on the reference host: two days and none average to one. *)
Lemma X16_exact_tenths_witness :
  @Local.avgResolutionTime hostRuntime [rowTwoDays; rowSameDay; rowOpen]
  = Number_toString (Some (10 / 10)) ++ "." ++ Number_toString (Some (10 mod 10)).
Proof.
  apply (@X16_exact_tenths hostRuntime [rowTwoDays; rowSameDay; rowOpen] [2; 0] 10).
  - change (@resolved hostRuntime [rowTwoDays; rowSameDay; rowOpen])
      with [rowTwoDays; rowSameDay].
    repeat (constructor; [split; [lia | vm_compute; reflexivity]|]). constructor.
  - discriminate.
  - reflexivity.
  - reflexivity.
Defined.
